(** * CSV cleaning and aggregation pipeline of [server.js]

    A shallow embedding of the header validator, the field normalizers, the
    row cleaner, the row filter, the aggregator and the upload handler of
    [server.js], together with the fragment of the JavaScript standard
    library they call, and the properties of the pipeline stated in the
    specification. *)

From Stdlib Require Import Ascii String.
From Stdlib Require Import List ZArith NArith PArith Bool Lia.
From Stdlib Require Import Numbers.DecimalString.
From Stdlib Require Import Sorting.Sorted Sorting.Permutation.
From Stdlib Require Import Floats.SpecFloat Floats.PrimFloat Floats.FloatOps.
Import ListNotations.

Set Implicit Arguments.

(* ================================================================== *)
(** * The JavaScript fragment used by the server *)
(* ================================================================== *)

Module JS.

(** ** Strings

    A JavaScript string is a sequence of 16-bit UTF-16 code units. *)

Definition code_unit : Set := N.
Definition jstring := list N.

(** ASCII literals: every byte of the Rocq literal is its own code unit. *)
Definition lit (s : string) : jstring :=
  map N_of_ascii (list_ascii_of_string s).
Arguments lit : simpl never.

Fixpoint str_eqb (a b : jstring) : bool :=
  match a, b with
  | [], [] => true
  | x :: a', y :: b' => N.eqb x y && str_eqb a' b'
  | _, _ => false
  end.

(** [a === ""] *)
Definition is_empty (a : jstring) : bool :=
  match a with [] => true | _ :: _ => false end.

(** [Array.prototype.includes] on an array of strings. *)
Definition includes (l : list jstring) (s : jstring) : bool :=
  existsb (str_eqb s) l.

(** WhiteSpace and LineTerminator code points of ECMAScript, the set that
    [String.prototype.trim] and the [Number] conversion strip. *)
Definition isWhiteSpace (c : code_unit) : bool :=
  ((9 <=? c) && (c <=? 13) || (c =? 32) || (c =? 160) || (c =? 5760)
   || (8192 <=? c) && (c <=? 8202) || (c =? 8232) || (c =? 8233)
   || (c =? 8239) || (c =? 8287) || (c =? 12288) || (c =? 65279))%N.

Fixpoint trimStart (s : jstring) : jstring :=
  match s with
  | c :: s' => if isWhiteSpace c then trimStart s' else s
  | [] => []
  end.

Definition trimEnd (s : jstring) : jstring := rev (trimStart (rev s)).

(** [String.prototype.trim] *)
Definition trim (s : jstring) : jstring := trimEnd (trimStart s).

(** [String.prototype.toLowerCase].  The mapping is the Unicode one on the
    ASCII range and on the two code points outside it whose lower-case form
    contains an ASCII letter (KELVIN SIGN, and LATIN CAPITAL LETTER I WITH
    DOT ABOVE, which becomes [i] followed by COMBINING DOT ABOVE).  The
    other code units are kept: their lower-case forms lie outside ASCII
    too, so they compare with the ASCII tokens of the server exactly as the
    kept code units do.  The mapping serves such comparisons, and ASCII
    texts, only: where the server returns a lower-cased text the engine's
    own mapping is a parameter. *)
Definition lowerUnit (c : code_unit) : jstring :=
  (if (65 <=? c) && (c <=? 90) then [c + 32]
   else if c =? 8490 then [107]
   else if c =? 304 then [105; 775]
   else [c])%N.

Definition toLowerCase (s : jstring) : jstring := flat_map lowerUnit s.

(** [s.slice(0, n)] *)
Definition slice0 (n : nat) (s : jstring) : jstring := firstn n s.

(** [s.padStart(2, "0")] *)
Definition padStart2 (s : jstring) : jstring :=
  repeat 48%N (2 - length s) ++ s.

(** [String(n)] for an integral Number: its decimal digits, with a leading
    minus sign when negative. *)
Definition String_of_Z (z : Z) : jstring :=
  lit (NilZero.string_of_int (Z.to_int z)).

(** [a.localeCompare(b)], as a negative, zero or positive integer.  The
    server compares month keys only, which consist of ASCII digits and
    ['-']; on these the host collation orders strings as the code units
    do, and that order is what is modelled. *)
Fixpoint localeCompare (a b : jstring) : Z :=
  match a, b with
  | [], [] => 0
  | [], _ :: _ => -1
  | _ :: _, [] => 1
  | x :: a', y :: b' =>
      match N.compare x y with
      | Lt => -1
      | Gt => 1
      | Eq => localeCompare a' b'
      end
  end.

(** ** Numbers

    A JavaScript Number is an IEEE 754 binary64 value. *)

Definition number := spec_float.
Definition prec : Z := 53.
Definition emax : Z := 1024.

(** [Number.isFinite] *)
Definition isFinite (x : number) : bool :=
  match x with
  | S754_zero _ | S754_finite _ _ _ => true
  | S754_infinity _ | S754_nan => false
  end.

(** [x < y], [x > y] and [x + y] on Numbers. *)
Definition lt (x y : number) : bool := SFltb x y.
Definition gt (x y : number) : bool := SFltb y x.
Definition add (x y : number) : number := SFadd prec emax x y.

(** A natural number (a literal such as [0] or [5], a length, a counter)
    as a Number.  Counters and lengths stay below 2^53 and are kept as
    [nat] until they meet a Number. *)
Definition nat_number (n : nat) : number :=
  binary_normalize prec emax (Z.of_nat n) 0 false.

(** The Number nearest to [m * 10^e], signed. *)
Definition of_decimal (neg : bool) (m : N) (e : Z) : number :=
  match m with
  | N0 => S754_zero neg
  | Npos p =>
      match e with
      | Z0 => binary_round prec emax neg p 0
      | Zpos k => binary_round prec emax neg (p * Pos.pow 10 k) 0
      | Zneg k =>
          SFdiv prec emax (S754_finite neg p 0)
                (S754_finite false (Pos.pow 10 k) 0)
      end
  end.

(** *** [Number(s)]: the StringNumericLiteral grammar *)

Definition digitOf (base : N) (c : code_unit) : option N :=
  (let d := if (48 <=? c) && (c <=? 57) then Some (c - 48)
            else if (97 <=? c) && (c <=? 102) then Some (c - 87)
            else if (65 <=? c) && (c <=? 70) then Some (c - 55)
            else None in
   match d with
   | Some v => if v <? base then Some v else None
   | None => None
   end)%N.

(** The longest run of digits at the head of [s]: the value accumulated
    onto [acc], the number of digits read added to [n], and the rest. *)
Fixpoint digits (base : N) (acc : N) (n : nat) (s : jstring)
  : N * nat * jstring :=
  match s with
  | c :: s' =>
      match digitOf base c with
      | Some d => digits base (acc * base + d)%N (S n) s'
      | None => (acc, n, s)
      end
  | [] => (acc, n, [])
  end.

(** ExponentPart, optional: [e] or [E], an optional sign, digits. *)
Definition exponentPart (s : jstring) : option Z :=
  match s with
  | [] => Some 0%Z
  | c :: s1 =>
      if ((c =? 101) || (c =? 69))%N then
        let '(neg, s2) :=
          match s1 with
          | 43%N :: s2 => (false, s2)
          | 45%N :: s2 => (true, s2)
          | _ => (false, s1)
          end in
        match digits 10 0 0 s2 with
        | (_, O, _) => None
        | (v, S _, []) => Some (if neg then Z.opp (Z.of_N v) else Z.of_N v)
        | (_, S _, _ :: _) => None
        end
      else None
  end.

(** StrUnsignedDecimalLiteral: [Infinity], or digits with an optional
    fraction and exponent, at least one digit before the exponent. *)
Definition unsignedDecimal (neg : bool) (s : jstring) : number :=
  if str_eqb s (lit "Infinity") then S754_infinity neg
  else
    let '(ip, ni, r1) := digits 10 0 0 s in
    let '(m, nf, r2) :=
      match r1 with
      | 46%N :: r => digits 10 ip 0 r
      | _ => (ip, O, r1)
      end in
    match (ni + nf)%nat, exponentPart r2 with
    | S _, Some e => of_decimal neg m (e - Z.of_nat nf)
    | _, _ => S754_nan
    end.

(** NonDecimalIntegerLiteral: [0x], [0o] or [0b] and digits of that base;
    [None] when the text does not start with such a prefix. *)
Definition nonDecimal (s : jstring) : option number :=
  match s with
  | 48%N :: p :: r =>
      let base :=
        (if (p =? 120) || (p =? 88) then Some 16
         else if (p =? 111) || (p =? 79) then Some 8
         else if (p =? 98) || (p =? 66) then Some 2
         else None)%N in
      match base with
      | Some b =>
          match digits b 0 0 r with
          | (v, S _, []) => Some (of_decimal false v 0)
          | _ => Some S754_nan
          end
      | None => None
      end
  | _ => None
  end.

Definition Number (s : jstring) : number :=
  match trim s with
  | [] => S754_zero false
  | (c :: r) as t =>
      match nonDecimal t with
      | Some x => x
      | None =>
          if (c =? 43)%N then unsignedDecimal false r
          else if (c =? 45)%N then unsignedDecimal true r
          else unsignedDecimal false t
      end
  end.

(** ** Division

    A JavaScript division by zero raises nothing: it yields an infinity or
    NaN.  To state that the server never divides by zero, a division whose
    divisor is zero is made a fault of its own, which every caller
    propagates. *)
Inductive outcome (A : Type) : Type :=
| Done (a : A)
| DivisionByZero.
Arguments DivisionByZero {A}.

Definition bind {A B : Type} (c : outcome A) (k : A -> outcome B) : outcome B :=
  match c with
  | Done a => k a
  | DivisionByZero => DivisionByZero
  end.

Notation "x <- c ;; k" := (bind c (fun x => k))
  (at level 61, c at next level, right associativity).

(** [x / n] for a counter or a length [n]. *)
Definition divide (x : number) (n : nat) : outcome number :=
  match n with
  | O => DivisionByZero
  | S _ => Done (SFdiv prec emax x (nat_number n))
  end.

(** ** Arrays and Maps *)

(** [Array.prototype.sort(cmp)]: a stable sort; [cmp a b <= 0] keeps [a]
    before [b]. *)
Section Sort.
Variable A : Type.
Variable cmp : A -> A -> Z.

Fixpoint insert (x : A) (l : list A) : list A :=
  match l with
  | [] => [x]
  | y :: l' => if (cmp x y <=? 0)%Z then x :: l else y :: insert x l'
  end.

Definition sort (l : list A) : list A := fold_right insert [] l.
End Sort.

(** A [Map] keyed by strings, as the list of its entries in insertion
    order. *)
Definition Map (V : Type) := list (jstring * V).

Fixpoint Map_get {V : Type} (m : Map V) (k : jstring) : option V :=
  match m with
  | [] => None
  | (k', v) :: m' => if str_eqb k k' then Some v else Map_get m' k
  end.

(** [m.set(k, v)]: an existing key keeps its place, a new one goes last. *)
Fixpoint Map_set {V : Type} (m : Map V) (k : jstring) (v : V) : Map V :=
  match m with
  | [] => [(k, v)]
  | (k', v') :: m' =>
      if str_eqb k k' then (k', v) :: m' else (k', v') :: Map_set m' k v
  end.

(** ** Values read from a parsed record

    A property of a record produced by the CSV parser is a string; the
    normalizers also accept [null] and [undefined] (an absent column). *)
Inductive value :=
| Undefined
| Null
| Str (s : jstring).

(** [String(v ?? "")] and [String(v)] for a value that is not nullish. *)
Definition String_or_empty (v : value) : jstring :=
  match v with
  | Str s => s
  | Undefined | Null => []
  end.

End JS.

Import JS.

(* ================================================================== *)
(** * The server: [server.js] *)
(* ================================================================== *)

Definition REQUIRED_COLUMNS : list jstring :=
  [lit "product"; lit "price"; lit "rating"; lit "instock"; lit "launch_date"].

Definition OPTIONAL_COLUMNS : list jstring := [lit "review"].

(** ** Field normalizers *)

(** The global replacement of [/[$£€,]/] by the empty string. *)
Definition isCurrencyOrComma (c : code_unit) : bool :=
  ((c =? 36) || (c =? 163) || (c =? 8364) || (c =? 44))%N.

Definition stripCurrency (s : jstring) : jstring :=
  filter (fun c => negb (isCurrencyOrComma c)) s.

(** [parseNumber]: a finite Number or [null]; [null] is [None]. *)
Definition parseNumber (v : value) : option number :=
  match v with
  | Undefined | Null => None
  | Str raw =>
      let s := trim raw in
      if is_empty s then None
      else
        let cleaned := stripCurrency s in
        let n := Number cleaned in
        if isFinite n then Some n else None
  end.

Definition TRUE_TOKENS : list jstring :=
  [lit "true"; lit "t"; lit "yes"; lit "y"; lit "1"; lit "in stock";
   lit "instock"].

Definition FALSE_TOKENS : list jstring :=
  [lit "false"; lit "f"; lit "no"; lit "n"; lit "0"; lit "out of stock";
   lit "oos"].

(** [parseBoolean]: the result is [true], [false] or [null]; [null] is
    [None]. *)
Definition parseBoolean (v : value) : option bool :=
  match v with
  | Undefined | Null => None
  | Str raw =>
      let s := toLowerCase (trim raw) in
      if is_empty s then None
      else if includes TRUE_TOKENS s then Some true
      else if includes FALSE_TOKENS s then Some false
      else None
  end.

(** The host's [Date]: what [Date.parse] makes of a text that is not in
    the ISO form ([None] for NaN, else the time value), and the calendar
    fields of a time value in the local time zone.  Both depend on the
    engine and its environment and are parameters of the pipeline. *)
Record DateHost := {
  Date_parse : jstring -> option Z;
  getFullYear : Z -> Z;
  getMonth : Z -> Z;
  getDate : Z -> Z
}.

Definition isDigit (c : code_unit) : bool := ((48 <=? c) && (c <=? 57))%N.

(** [/^(\d{4})-(\d{2})-(\d{2})$/] *)
Definition isoMatch (s : jstring) : bool :=
  match s with
  | [y1; y2; y3; y4; h1; m1; m2; h2; d1; d2] =>
      isDigit y1 && isDigit y2 && isDigit y3 && isDigit y4 && (h1 =? 45)%N
      && isDigit m1 && isDigit m2 && (h2 =? 45)%N && isDigit d1 && isDigit d2
  | _ => false
  end.

Section Pipeline.

Variable host : DateHost.

Definition parseDateISO (v : value) : option jstring :=
  match v with
  | Undefined | Null => None
  | Str raw =>
      let s := trim raw in
      if is_empty s then None
      else if isoMatch s then Some s
      else
        match Date_parse host s with
        | None => None
        | Some t =>
            let yyyy := getFullYear host t in
            let mm := padStart2 (String_of_Z (getMonth host t + 1)) in
            let dd := padStart2 (String_of_Z (getDate host t)) in
            Some (String_of_Z yyyy ++ lit "-" ++ mm ++ lit "-" ++ dd)
        end
  end.

(** ** Header validator *)

Record Validation := {
  missing : list jstring;
  unexpected : list jstring
}.

Definition validateColumns (headers : list jstring) : Validation :=
  {| missing := filter (fun c => negb (includes headers c)) REQUIRED_COLUMNS;
     unexpected :=
       filter (fun h => negb (includes REQUIRED_COLUMNS h)
                        && negb (includes OPTIONAL_COLUMNS h)) headers |}.

(** ** Row cleaner *)

(** A record of the CSV parser: its own properties in the order of
    [Object.keys], the normalized header names. *)
Definition RawRecord := list (jstring * value).

(** [row.k]: [undefined] when the record has no such property. *)
Fixpoint prop (row : RawRecord) (k : jstring) : value :=
  match row with
  | [] => Undefined
  | (k', v) :: row' => if str_eqb k k' then v else prop row' k
  end.

Record CleanedRow := {
  product : option jstring;
  price : option number;
  rating : option number;
  instock : option bool;
  review : option jstring;
  launch_date : option jstring
}.

Definition set_rating (c : CleanedRow) (r : number) : CleanedRow :=
  {| product := product c; price := price c; rating := Some r;
     instock := instock c; review := review c;
     launch_date := launch_date c |}.

(** [s || null] *)
Definition or_null (s : jstring) : option jstring :=
  if is_empty s then None else Some s.

Definition cleanRow (row : RawRecord) : CleanedRow :=
  let cleaned :=
    {| product := or_null (trim (String_or_empty (prop row (lit "product"))));
       price := parseNumber (prop row (lit "price"));
       rating := parseNumber (prop row (lit "rating"));
       instock := parseBoolean (prop row (lit "instock"));
       review :=
         match prop row (lit "review") with
         | Undefined => None
         | v => Some (trim (String_or_empty v))
         end;
       launch_date := parseDateISO (prop row (lit "launch_date")) |} in
  match rating cleaned with
  | None => cleaned
  | Some r =>
      let cleaned1 :=
        if lt r (nat_number 0) then set_rating cleaned (nat_number 0)
        else cleaned in
      match rating cleaned1 with
      | Some r1 =>
          if gt r1 (nat_number 5) then set_rating cleaned1 (nat_number 5)
          else cleaned1
      | None => cleaned1
      end
  end.

(** ** Row filter *)

(** [values.some((v) => v !== null)] over the five tracked fields. *)
Definition informative (r : CleanedRow) : bool :=
  match product r, price r, rating r, instock r, launch_date r with
  | None, None, None, None, None => false
  | _, _, _, _, _ => true
  end.

Definition rowFilter (cleanedRows : list CleanedRow) : list CleanedRow :=
  filter informative cleanedRows.

(** ** Aggregator *)

Record MissingCounts := {
  missing_product : nat;
  missing_price : nat;
  missing_rating : nat;
  missing_instock : nat;
  missing_launch_date : nat
}.

Record Stats := {
  count : nat;
  min : option number;
  max : option number;
  mean : option number
}.

Record InstockCounts := {
  count_true : nat;
  count_false : nat;
  count_null : nat
}.

Record MonthAcc := {
  acc_count : nat;
  priceSum : number;
  priceN : nat;
  ratingSum : number;
  ratingN : nat
}.

Record MonthEntry := {
  month : jstring;
  month_count : nat;
  avgPrice : option number;
  avgRating : option number
}.

Record TopProduct := {
  top_product : jstring;
  top_count : nat
}.

Record Analytics := {
  totalRows : nat;
  missingCounts : MissingCounts;
  stats_price : Stats;
  stats_rating : Stats;
  topProducts : list TopProduct;
  instockCounts : InstockCounts;
  monthly : list MonthEntry
}.

(** The accumulators of the loop over the rows. *)
Record Accumulators := {
  acc_missing : MissingCounts;
  numeric_price : list number;
  numeric_rating : list number;
  productCounts : Map nat;
  acc_instock : InstockCounts;
  monthAcc : Map MonthAcc
}.

(** [if (r[k] === null) missing[k] += 1] *)
Definition bump {A : Type} (field : option A) (n : nat) : nat :=
  match field with
  | None => S n
  | Some _ => n
  end.

Definition countMissing (m : MissingCounts) (r : CleanedRow) : MissingCounts :=
  {| missing_product := bump (product r) (missing_product m);
     missing_price := bump (price r) (missing_price m);
     missing_rating := bump (rating r) (missing_rating m);
     missing_instock := bump (instock r) (missing_instock m);
     missing_launch_date := bump (launch_date r) (missing_launch_date m) |}.

(** [if (x !== null) arr.push(x)] *)
Definition push_if (arr : list number) (x : option number) : list number :=
  match x with
  | Some n => arr ++ [n]
  | None => arr
  end.

(** [n || 0] on the result of [Map.get] *)
Definition or_zero (n : option nat) : nat :=
  match n with
  | Some n => n
  | None => 0
  end.

Definition countProduct (m : Map nat) (r : CleanedRow) : Map nat :=
  let p := match product r with Some p => p | None => lit "Unknown" end in
  Map_set m p (or_zero (Map_get m p) + 1).

Definition countInstock (c : InstockCounts) (r : CleanedRow) : InstockCounts :=
  match instock r with
  | Some true =>
      {| count_true := count_true c + 1; count_false := count_false c;
         count_null := count_null c |}
  | Some false =>
      {| count_true := count_true c; count_false := count_false c + 1;
         count_null := count_null c |}
  | None =>
      {| count_true := count_true c; count_false := count_false c;
         count_null := count_null c + 1 |}
  end.

Definition emptyMonthAcc : MonthAcc :=
  {| acc_count := 0; priceSum := nat_number 0; priceN := 0;
     ratingSum := nat_number 0; ratingN := 0 |}.

(** The body of [if (r.launch_date) { ... }] on the accumulator of the
    row's month. *)
Definition accumulate (acc : MonthAcc) (r : CleanedRow) : MonthAcc :=
  {| acc_count := acc_count acc + 1;
     priceSum := match price r with
                 | Some p => add (priceSum acc) p
                 | None => priceSum acc
                 end;
     priceN := match price r with
               | Some _ => priceN acc + 1
               | None => priceN acc
               end;
     ratingSum := match rating r with
                  | Some x => add (ratingSum acc) x
                  | None => ratingSum acc
                  end;
     ratingN := match rating r with
                | Some _ => ratingN acc + 1
                | None => ratingN acc
                end |}.

(** The month key of a row whose [launch_date] is truthy: neither [null]
    nor the empty string. *)
Definition monthKey (r : CleanedRow) : option jstring :=
  match launch_date r with
  | None => None
  | Some d => if is_empty d then None else Some (slice0 7 d)
  end.

Definition countMonth (m : Map MonthAcc) (r : CleanedRow) : Map MonthAcc :=
  match monthKey r with
  | None => m
  | Some k =>
      let acc := match Map_get m k with
                 | Some acc => acc
                 | None => emptyMonthAcc
                 end in
      Map_set m k (accumulate acc r)
  end.

(** One turn of [for (const r of rows)]. *)
Definition step (a : Accumulators) (r : CleanedRow) : Accumulators :=
  {| acc_missing := countMissing (acc_missing a) r;
     numeric_price := push_if (numeric_price a) (price r);
     numeric_rating := push_if (numeric_rating a) (rating r);
     productCounts := countProduct (productCounts a) r;
     acc_instock := countInstock (acc_instock a) r;
     monthAcc := countMonth (monthAcc a) r |}.

Definition initial : Accumulators :=
  {| acc_missing :=
       {| missing_product := 0; missing_price := 0; missing_rating := 0;
          missing_instock := 0; missing_launch_date := 0 |};
     numeric_price := [];
     numeric_rating := [];
     productCounts := [];
     acc_instock := {| count_true := 0; count_false := 0; count_null := 0 |};
     monthAcc := [] |}.

(** [n ? sum / n : null] *)
Definition average (sum : number) (n : nat) : outcome (option number) :=
  if Nat.eqb n 0 then Done None
  else q <- divide sum n ;; Done (Some q).

(** The entries of [byMonth], in the order of [monthAcc]. *)
Fixpoint finalize (m : Map MonthAcc) : outcome (list MonthEntry) :=
  match m with
  | [] => Done []
  | (k, acc) :: m' =>
      ap <- average (priceSum acc) (priceN acc) ;;
      ar <- average (ratingSum acc) (ratingN acc) ;;
      rest <- finalize m' ;;
      Done ({| month := k; month_count := acc_count acc;
               avgPrice := ap; avgRating := ar |} :: rest)
  end.

Definition stats (arr : list number) : outcome Stats :=
  match arr with
  | [] => Done {| count := 0; min := None; max := None; mean := None |}
  | a0 :: _ =>
      let '(mn, mx, sum) :=
        fold_left
          (fun '(mn, mx, sum) x =>
             (if lt x mn then x else mn,
              if gt x mx then x else mx,
              add sum x))
          arr (a0, a0, nat_number 0) in
      m <- divide sum (length arr) ;;
      Done {| count := length arr; min := Some mn; max := Some mx;
              mean := Some m |}
  end.

Definition computeAnalytics (rows : list CleanedRow) : outcome Analytics :=
  let a := fold_left step rows initial in
  byMonth <- finalize (monthAcc a) ;;
  let top :=
    map (fun e => {| top_product := fst e; top_count := snd e |})
        (firstn 10
           (sort (fun x y => Z.of_nat (snd y) - Z.of_nat (snd x))%Z
                 (productCounts a))) in
  let months :=
    sort (fun x y => localeCompare (month x) (month y)) byMonth in
  sp <- stats (numeric_price a) ;;
  sr <- stats (numeric_rating a) ;;
  Done {| totalRows := length rows;
          missingCounts := acc_missing a;
          stats_price := sp;
          stats_rating := sr;
          topProducts := top;
          instockCounts := acc_instock a;
          monthly := months |}.

(** ** The upload handler, from the parsed records on *)

Inductive Response :=
| SchemaError (error : jstring)
    (details_missing details_required details_found : list jstring)
| Success (warnings : option (list jstring)) (analytics : Analytics)
    (sampleCleanedRows : list CleanedRow).

Definition headersOf (records : list RawRecord) : list jstring :=
  match records with
  | r0 :: _ => map fst r0
  | [] => []
  end.

Definition upload (records : list RawRecord) : outcome Response :=
  let headers := headersOf records in
  let v := validateColumns headers in
  if negb (Nat.eqb (length (missing v)) 0) then
    Done (SchemaError
            (lit "CSV structure invalid: missing required columns.")
            (missing v) REQUIRED_COLUMNS headers)
  else
    let cleanedRows := map cleanRow records in
    let finalRows := rowFilter cleanedRows in
    analytics <- computeAnalytics finalRows ;;
    Done (Success
            (if negb (Nat.eqb (length (unexpected v)) 0)
             then Some (unexpected v) else None)
            analytics
            (firstn 8 finalRows)).

End Pipeline.

(* ================================================================== *)
(** * Vocabulary of the properties *)
(* ================================================================== *)

(** The code units removed by [stripCurrency]: [$], [£], [€] and [,]. *)
Definition CURRENCY_OR_COMMA : list code_unit := [36; 163; 8364; 44]%N.

(** [rating] after the two clamping tests of [cleanRow]. *)
Definition clamp (r : number) : number :=
  if lt r (nat_number 0) then nat_number 0
  else if gt r (nat_number 5) then nat_number 5
  else r.

(** The non-null values of a field, in the order of the rows. *)
Definition values (f : CleanedRow -> option number) (rows : list CleanedRow)
  : list number :=
  flat_map (fun r => match f r with Some x => [x] | None => [] end) rows.

(** The sum of an array, added up from the left, starting from [0]. *)
Definition total (xs : list number) : number :=
  fold_left add xs (nat_number 0).

(** [sum / n] when [n > 0], else [null]. *)
Definition quotient (sum : number) (n : nat) : option number :=
  match n with
  | O => None
  | S _ => Some (SFdiv prec emax sum (nat_number n))
  end.

Definition emptyStats : Stats :=
  {| count := 0; min := None; max := None; mean := None |}.

Definition instockTotal (c : InstockCounts) : nat :=
  count_true c + count_false c + count_null c.

(** The entry of [byMonth] made from an entry of [monthAcc]. *)
Definition finalEntry (e : jstring * MonthAcc) : MonthEntry :=
  {| month := fst e;
     month_count := acc_count (snd e);
     avgPrice := quotient (priceSum (snd e)) (priceN (snd e));
     avgRating := quotient (ratingSum (snd e)) (ratingN (snd e)) |}.

(** The rows of a month: those whose [launch_date] is not [null] and
    starts with the seven code units of the key. *)
Definition inMonth (k : jstring) (r : CleanedRow) : bool :=
  match launch_date r with
  | Some d => str_eqb k (slice0 7 d)
  | None => false
  end.

Definition bucket (k : jstring) (rows : list CleanedRow) : list CleanedRow :=
  filter (inMonth k) rows.

Definition noLaunchDate (r : CleanedRow) : bool :=
  match launch_date r with
  | None => true
  | Some _ => false
  end.

(** The lexicographic order of strings by code unit. *)
Inductive lex_lt : jstring -> jstring -> Prop :=
| lex_lt_nil : forall c s, lex_lt [] (c :: s)
| lex_lt_head : forall x y a b, (x < y)%N -> lex_lt (x :: a) (y :: b)
| lex_lt_tail : forall x a b, lex_lt a b -> lex_lt (x :: a) (x :: b).

(** A host whose [Date.parse] accepts nothing, to run the pipeline on
    records whose dates are in the ISO form. *)
Definition isoOnlyHost : DateHost :=
  {| Date_parse := fun _ => None;
     getFullYear := fun _ => 1970%Z;
     getMonth := fun _ => 0%Z;
     getDate := fun _ => 1%Z |}.

(** The records of the end-to-end example of the specification, and a
    blank line of the same file. *)
Definition widgetRecord : RawRecord :=
  [(lit "product", Str (lit "Widget"));
   (lit "price", Str (lit "$10,000"));
   (lit "rating", Str (lit "6"));
   (lit "instock", Str (lit "yes"));
   (lit "launch_date", Str (lit "2024-01-05"))].

Definition blankRecord : RawRecord :=
  [(lit "product", Str (lit ""));
   (lit "price", Str (lit ""));
   (lit "rating", Str (lit ""));
   (lit "instock", Str (lit ""));
   (lit "launch_date", Str (lit ""))].

(** The rows that the loop of the aggregator adds to the accumulator of
    month [k], and the accumulator they make. *)
Definition keyed (k : jstring) (r : CleanedRow) : bool :=
  match monthKey r with
  | Some k' => str_eqb k k'
  | None => false
  end.

Definition summary (b : list CleanedRow) : MonthAcc :=
  {| acc_count := length b;
     priceSum := total (values price b);
     priceN := length (values price b);
     ratingSum := total (values rating b);
     ratingN := length (values rating b) |}.

(** Two rows of February and January 2024, in that order. *)
Definition datedRow (d : string) : CleanedRow :=
  {| product := None; price := None; rating := None; instock := None;
     review := None; launch_date := Some (lit d) |}.

(** The natural number written by a run of decimal digits. *)
Definition decimalValue (ds : jstring) : N :=
  fold_left (fun acc c => acc * 10 + (c - 48))%N ds 0%N.

(** A Number when it is finite, else [null]. *)
Definition finite_or_null (n : number) : option number :=
  if isFinite n then Some n else None.

(** The text of a decimal numeral: an optional minus sign, the digits of
    the integer part, a point and the digits of the fraction. *)
Definition numeral (neg : bool) (ds fs : jstring) : jstring :=
  (if neg then [45%N] else []) ++ ds ++ [46%N] ++ fs.

(* ================================================================== *)
(** * The rest of [server.js] and the vocabulary of its properties *)
(* ================================================================== *)

(** [normalizeHeader]: [String(h || "").trim().toLowerCase()]; a nullish
    or empty header is falsy and becomes the empty string.  The text is
    returned, so it is lower-cased by the engine's own
    [String.prototype.toLowerCase], whose Unicode case table is not part
    of the repository: that mapping is the parameter [lowerCase]. *)
Definition normalizeHeader (lowerCase : jstring -> jstring) (h : value)
  : jstring :=
  lowerCase (trim (String_or_empty h)).

(** A text of ASCII code units, on which [JS.toLowerCase] is the engine's
    mapping. *)
Definition asciiText (s : jstring) : Prop :=
  Forall (fun c => (c < 128)%N) s.

(** A text made of WhiteSpace and LineTerminator code units only. *)
Definition blank (s : jstring) : Prop :=
  Forall (fun c => isWhiteSpace c = true) s.

(** A text that is empty or starts and ends with a code unit that is not
    white space. *)
Definition trimmed (s : jstring) : Prop :=
  s = []
  \/ exists c0 tl init l,
       s = c0 :: tl /\ s = init ++ [l]
       /\ isWhiteSpace c0 = false /\ isWhiteSpace l = false.

(** The integers [lo], [lo + 1], ..., [lo + n - 1]. *)
Definition Z_range (lo : Z) (n : nat) : list Z :=
  map (fun i => (lo + Z.of_nat i)%Z) (seq 0 n).

(** A text of exactly [n] decimal digits. *)
Definition digitsOnly (n : nat) (s : jstring) : bool :=
  Nat.eqb (length s) n && forallb isDigit s.

(** A host whose [Date.parse] reads every text as the first day of 1970 in
    local time. *)
Definition epochHost : DateHost :=
  {| Date_parse := fun _ => Some 0%Z;
     getFullYear := fun _ => 1970%Z;
     getMonth := fun _ => 0%Z;
     getDate := fun _ => 1%Z |}.

(** [v === null] *)
Definition isNull {A : Type} (o : option A) : bool :=
  match o with
  | None => true
  | Some _ => false
  end.

(** The number of rows whose field [f] is [null]. *)
Definition nullCount {A : Type} (f : CleanedRow -> option A)
           (rows : list CleanedRow) : nat :=
  length (filter (fun r => isNull (f r)) rows).

(** The rows whose [instock] is the given one of [true], [false], [null]. *)
Definition instockIs (b : option bool) (r : CleanedRow) : bool :=
  match instock r, b with
  | Some true, Some true | Some false, Some false | None, None => true
  | _, _ => false
  end.

(** Two records with the same values in the six columns the cleaner
    reads. *)
Definition sameColumns (row row' : RawRecord) : Prop :=
  forall k, In k (REQUIRED_COLUMNS ++ OPTIONAL_COLUMNS) ->
            prop row' k = prop row k.

(** The minimum and the maximum kept by the loop of [stats]. *)
Definition minStep (mn x : number) : number := if lt x mn then x else mn.
Definition maxStep (mx x : number) : number := if gt x mx then x else mx.

(** The label under which the aggregator counts a row: its product, or
    ["Unknown"] when the product is [null]. *)
Definition label (r : CleanedRow) : jstring :=
  match product r with
  | Some p => p
  | None => lit "Unknown"
  end.

(** The number of rows counted under a label. *)
Definition occurrences (p : jstring) (rows : list CleanedRow) : nat :=
  length (filter (fun r => str_eqb p (label r)) rows).

(** The rows that take part in the monthly series. *)
Definition hasMonth (r : CleanedRow) : bool := negb (isNull (monthKey r)).

(** The distinct texts of a list, in the order of their first
    occurrence. *)
Definition firstSeen (l : list jstring) : list jstring :=
  fold_left (fun seen k => if includes seen k then seen else seen ++ [k]) l [].

(** The analytics of no rows. *)
Definition noAnalytics : Analytics :=
  {| totalRows := 0;
     missingCounts :=
       {| missing_product := 0; missing_price := 0; missing_rating := 0;
          missing_instock := 0; missing_launch_date := 0 |};
     stats_price := emptyStats;
     stats_rating := emptyStats;
     topProducts := [];
     instockCounts := {| count_true := 0; count_false := 0; count_null := 0 |};
     monthly := [] |}.

(** A host whose [Date.parse] reads every text as a day of the year 987. *)
Definition year987Host : DateHost :=
  {| Date_parse := fun _ => Some 0%Z;
     getFullYear := fun _ => 987%Z;
     getMonth := fun _ => 2%Z;
     getDate := fun _ => 14%Z |}.

(** [/^\d{4}-\d{2}$/]: the shape of a month key [YYYY-MM]. *)
Definition isMonthKey (k : jstring) : bool :=
  match k with
  | [y1; y2; y3; y4; h; m1; m2] =>
      isDigit y1 && isDigit y2 && isDigit y3 && isDigit y4 && (h =? 45)%N
      && isDigit m1 && isDigit m2
  | _ => false
  end.

(** A record whose launch date is written in words, with a year of three
    digits. *)
Definition shortYearRecord : RawRecord :=
  [(lit "product", Str (lit "Widget"));
   (lit "price", Str (lit "10"));
   (lit "rating", Str (lit "4"));
   (lit "instock", Str (lit "yes"));
   (lit "launch_date", Str (lit "14 March 987"))].

(* ================================================================== *)
(** * Properties *)
(* ================================================================== *)

(** ** Tactics *)

(** Settle the comparisons of code unit [c] with constants that the
    bounds on [c] in the context decide to be false. *)
Ltac units_differ c :=
  repeat match goal with
         | |- context [(c =? ?k)%N] =>
             replace (c =? k)%N with false
               by (symmetry; apply N.eqb_neq; lia)
         end.

(** Follow the two clamping tests of [cleanRow] on a field they leave
    alone. *)
Ltac through_clamp :=
  unfold cleanRow; cbv zeta; cbn [rating];
  destruct (parseNumber (prop _ (lit "rating"))) as [?r|]; [|reflexivity];
  destruct (lt _ (nat_number 0)); cbn [rating set_rating];
  destruct (gt _ (nat_number 5)); reflexivity.

(** ** Strings *)

Lemma str_eqb_eq (a b : jstring) : str_eqb a b = true <-> a = b.
Proof.
  revert b; induction a as [|x a IH]; intros [|y b]; simpl; split;
    try congruence; try reflexivity.
  - intros H. apply andb_true_iff in H as [Hx Hab].
    apply N.eqb_eq in Hx. apply IH in Hab. congruence.
  - intros H. injection H as -> ->. rewrite N.eqb_refl. simpl.
    now apply IH.
Qed.

Lemma str_eqb_refl (a : jstring) : str_eqb a a = true.
Proof. now apply str_eqb_eq. Qed.

Lemma str_eqb_neq (a b : jstring) : str_eqb a b = false <-> a <> b.
Proof.
  split.
  - intros E H. apply str_eqb_eq in H. congruence.
  - intros H. destruct (str_eqb a b) eqn:E; [|reflexivity].
    apply str_eqb_eq in E. contradiction.
Qed.

Lemma includes_In (l : list jstring) (s : jstring) :
  includes l s = true <-> In s l.
Proof.
  unfold includes. rewrite existsb_exists. split.
  - intros (x & Hin & Heq). apply str_eqb_eq in Heq. now subst.
  - intros Hin. exists s. split; [assumption | now apply str_eqb_eq].
Qed.

Lemma includes_not_In (l : list jstring) (s : jstring) :
  includes l s = false <-> ~ In s l.
Proof.
  rewrite <- includes_In. destruct (includes l s); split; congruence.
Qed.

Lemma is_empty_nil (s : jstring) : is_empty s = true <-> s = [].
Proof. destruct s; simpl; split; congruence. Qed.

(** ** Boolean normalizer *)

(** C1 (as the code has it).  A raw value whose trimmed, lower-cased form
    is a non-empty token outside both recognized token sets is normalized
    to [null]: the very value returned for an empty or an absent input.
    The normalizer has no separate [unknown] result. *)
Theorem parseBoolean_unrecognized_is_null (raw : jstring) :
  toLowerCase (trim raw) <> [] ->
  ~ In (toLowerCase (trim raw)) TRUE_TOKENS ->
  ~ In (toLowerCase (trim raw)) FALSE_TOKENS ->
  parseBoolean (Str raw) = None
  /\ parseBoolean (Str raw) = parseBoolean (Str (lit ""))
  /\ parseBoolean (Str raw) = parseBoolean Undefined
  /\ parseBoolean (Str raw) = parseBoolean Null.
Proof.
  intros Hne Ht Hf.
  assert (E : parseBoolean (Str raw) = None).
  { unfold parseBoolean.
    destruct (toLowerCase (trim raw)) as [|c s] eqn:Es; [congruence|].
    cbn [is_empty].
    apply includes_not_In in Ht, Hf. rewrite Ht, Hf. reflexivity. }
  rewrite E. repeat split; reflexivity.
Qed.

Lemma parseBoolean_unrecognized_is_null_witness :
  parseBoolean (Str (lit "maybe")) = None
  /\ parseBoolean (Str (lit "maybe")) = parseBoolean (Str (lit ""))
  /\ parseBoolean (Str (lit "maybe")) = parseBoolean Undefined
  /\ parseBoolean (Str (lit "maybe")) = parseBoolean Null.
Proof.
  apply (parseBoolean_unrecognized_is_null (lit "maybe")).
  - vm_compute. discriminate.
  - vm_compute. intuition discriminate.
  - vm_compute. intuition discriminate.
Defined.

(** C1 (as the specification states it) fails: ["maybe"] is a non-empty
    token outside both sets, and its result is not different from the
    result for the empty string. *)
Lemma parseBoolean_maybe_not_distinct :
  toLowerCase (trim (lit "maybe")) = lit "maybe"
  /\ includes TRUE_TOKENS (lit "maybe") = false
  /\ includes FALSE_TOKENS (lit "maybe") = false
  /\ ~ (parseBoolean (Str (lit "maybe")) <> parseBoolean (Str (lit ""))).
Proof.
  repeat split; try reflexivity.
  intros H. apply H. reflexivity.
Qed.

(** ** Numeric normalizer *)

Lemma isCurrencyOrComma_In (c : code_unit) :
  isCurrencyOrComma c = true <-> In c CURRENCY_OR_COMMA.
Proof.
  unfold isCurrencyOrComma, CURRENCY_OR_COMMA. simpl.
  rewrite !orb_true_iff, !N.eqb_eq. intuition congruence.
Qed.

Lemma stripCurrency_In (s : jstring) (c : code_unit) :
  In c (stripCurrency s) <-> In c s /\ ~ In c CURRENCY_OR_COMMA.
Proof.
  unfold stripCurrency. rewrite filter_In, negb_true_iff.
  rewrite <- isCurrencyOrComma_In.
  destruct (isCurrencyOrComma c); intuition congruence.
Qed.

Lemma stripCurrency_app (a b : jstring) :
  stripCurrency (a ++ b) = stripCurrency a ++ stripCurrency b.
Proof. apply filter_app. Qed.

Lemma stripCurrency_clean (s : jstring) :
  (forall c, In c s -> ~ In c CURRENCY_OR_COMMA) -> stripCurrency s = s.
Proof.
  induction s as [|c s IH]; intros H; [reflexivity|].
  unfold stripCurrency in *. simpl.
  destruct (isCurrencyOrComma c) eqn:E.
  - apply isCurrencyOrComma_In in E. exfalso. apply (H c); simpl; auto.
  - simpl. f_equal. apply IH. intros d Hd. apply H. now right.
Qed.

Lemma parseNumber_Str (raw : jstring) :
  parseNumber (Str raw) =
    if is_empty (trim raw) then None
    else if isFinite (Number (stripCurrency (trim raw)))
         then Some (Number (stripCurrency (trim raw)))
         else None.
Proof. reflexivity. Qed.

Lemma parseNumber_finite (v : value) (n : number) :
  parseNumber v = Some n -> isFinite n = true.
Proof.
  destruct v as [| |raw]; try discriminate.
  rewrite parseNumber_Str.
  destruct (is_empty (trim raw)); [discriminate|].
  destruct (isFinite (Number (stripCurrency (trim raw)))) eqn:E;
    [|discriminate].
  intros H. injection H as <-. exact E.
Qed.


(** ** Signed decimal numerals *)

Lemma isDigit_range (c : code_unit) :
  isDigit c = true <-> (48 <= c <= 57)%N.
Proof.
  unfold isDigit. rewrite andb_true_iff, !N.leb_le. reflexivity.
Qed.

Lemma printable_not_white (c : code_unit) :
  (33 <= c < 160)%N -> isWhiteSpace c = false.
Proof.
  intros H. unfold isWhiteSpace.
  replace (c <=? 13)%N with false by (symmetry; apply N.leb_gt; lia).
  replace (8192 <=? c)%N with false by (symmetry; apply N.leb_gt; lia).
  units_differ c. now rewrite andb_false_r.
Qed.

Lemma digitOf_digit (c : code_unit) :
  isDigit c = true -> digitOf 10 c = Some (c - 48)%N.
Proof.
  intros H. pose proof H as R. apply isDigit_range in R.
  unfold digitOf. unfold isDigit in H. rewrite H.
  replace (c - 48 <? 10)%N with true by (symmetry; apply N.ltb_lt; lia).
  reflexivity.
Qed.

Lemma digits_run (ds rest : jstring) (acc : N) (n : nat) :
  Forall (fun c => isDigit c = true) ds ->
  match rest with [] => True | c :: _ => digitOf 10 c = None end ->
  digits 10 acc n (ds ++ rest)
  = (fold_left (fun a c => a * 10 + (c - 48))%N ds acc, n + length ds, rest).
Proof.
  intros Hds Hrest. revert acc n.
  induction Hds as [|c ds Hc Hds IH]; intros acc n.
  - cbn [app fold_left length]. rewrite Nat.add_0_r.
    destruct rest as [|c rest]; [reflexivity|].
    cbn [digits]. now rewrite Hrest.
  - cbn [app digits fold_left length]. rewrite (digitOf_digit _ Hc), IH.
    now rewrite Nat.add_succ_r.
Qed.

Lemma trim_id (s init : jstring) (c0 l : code_unit) (tl : jstring) :
  s = c0 :: tl -> s = init ++ [l] ->
  isWhiteSpace c0 = false -> isWhiteSpace l = false ->
  trim s = s.
Proof.
  intros E0 El H0 Hl. unfold trim, trimEnd.
  assert (E : trimStart s = s).
  { rewrite E0. cbn [trimStart]. now rewrite H0. }
  rewrite E, El, rev_app_distr. cbn [rev app trimStart]. rewrite Hl.
  change (l :: rev init) with ([l] ++ rev init).
  now rewrite rev_app_distr, rev_involutive.
Qed.

Lemma of_decimal_opp (m : N) (e : Z) :
  of_decimal true m e = SFopp (of_decimal false m e).
Proof.
  unfold of_decimal. destruct m as [|p]; [reflexivity|].
  assert (R : forall mx ex lx,
             binary_round_aux prec emax true mx ex lx
             = SFopp (binary_round_aux prec emax false mx ex lx)).
  { intros. unfold binary_round_aux.
    destruct (shr_fexp prec emax mx ex lx) as [mrs' e'].
    destruct (shr_fexp prec emax _ e' loc_Exact) as [mrs'' e''].
    destruct (shr_m mrs''); try reflexivity.
    destruct (Z.leb e'' (emax - prec)); reflexivity. }
  destruct e as [|k|k].
  - unfold binary_round.
    destruct (shl_align p 0 _) as [mz ez]. apply R.
  - unfold binary_round.
    destruct (shl_align (p * 10 ^ k) 0 _) as [mz ez]. apply R.
  - unfold SFdiv.
    destruct (SFdiv_core_binary prec emax (Z.pos p) 0 (Z.pos (10 ^ k)) 0)
      as [[mz ez] lz].
    cbn [xorb]. apply R.
Qed.

Lemma nonDecimal_not_zero (d : code_unit) (r : jstring) :
  d <> 48%N -> nonDecimal (d :: r) = None.
Proof.
  intros H. destruct d as [|p]; [reflexivity|].
  do 6 (destruct p as [p|p|]; try reflexivity). congruence.
Qed.

Lemma numeral_ends (neg : bool) (ds fs : jstring) :
  ds <> [] ->
  Forall (fun c => isDigit c = true) ds ->
  Forall (fun c => isDigit c = true) fs ->
  exists c0 tl init l,
    numeral neg ds fs = c0 :: tl /\ numeral neg ds fs = init ++ [l]
    /\ isWhiteSpace c0 = false /\ isWhiteSpace l = false.
Proof.
  intros Hne Hds Hfs.
  assert (Hd : forall c, isDigit c = true -> isWhiteSpace c = false).
  { intros c H. apply isDigit_range in H. apply printable_not_white. lia. }
  assert (Hlast : exists init l,
             ds ++ [46%N] ++ fs = init ++ [l] /\ isWhiteSpace l = false).
  { destruct fs as [|f fs'].
    - exists ds, 46%N. split; reflexivity.
    - destruct (@exists_last _ (f :: fs')) as (fi & fl & Ef);
        [discriminate|].
      rewrite Ef in *. exists (ds ++ [46%N] ++ fi), fl. split.
      + now rewrite <- !app_assoc.
      + apply Hd. rewrite Forall_app in Hfs. destruct Hfs as [_ Hl].
        now inversion Hl. }
  destruct Hlast as (init & l & El & Hl).
  unfold numeral. destruct neg.
  - exists 45%N, (ds ++ [46%N] ++ fs), (45%N :: init), l.
    cbn [app] in *. rewrite El. repeat split; auto.
  - destruct ds as [|d ds']; [congruence|].
    exists d, (ds' ++ [46%N] ++ fs), init, l.
    cbn [app] in *. repeat split; auto.
    apply Hd. now inversion Hds.
Qed.

Lemma Number_numeral (neg : bool) (ds fs : jstring) :
  ds <> [] ->
  Forall (fun c => isDigit c = true) ds ->
  Forall (fun c => isDigit c = true) fs ->
  Number (numeral neg ds fs)
  = of_decimal neg (decimalValue (ds ++ fs)) (- Z.of_nat (length fs)).
Proof.
  intros Hne Hds Hfs.
  destruct (numeral_ends neg Hne Hds Hfs) as (c0 & tl & init & l & E0 & El & H0 & Hl).
  unfold Number. rewrite (@trim_id _ _ _ _ _ E0 El H0 Hl).
  assert (Hun : unsignedDecimal neg (ds ++ [46%N] ++ fs)
                = of_decimal neg (decimalValue (ds ++ fs))
                             (- Z.of_nat (length fs))).
  { unfold unsignedDecimal.
    destruct ds as [|d ds']; [congruence|].
    assert (Hd : (48 <= d <= 57)%N).
    { apply isDigit_range. now inversion Hds. }
    assert (Einf : str_eqb ((d :: ds') ++ [46%N] ++ fs) (lit "Infinity")
                   = false).
    { cbn [app str_eqb lit]. change (lit "Infinity") with
        (73%N :: lit "nfinity"). cbn [str_eqb].
      units_differ d. reflexivity. }
    rewrite Einf.
    rewrite (@digits_run (d :: ds') ([46%N] ++ fs) 0 0 Hds) by reflexivity.
    cbn [app].
    pose proof (@digits_run fs [] (decimalValue (d :: ds')) 0 Hfs I) as Hf.
    rewrite app_nil_r in Hf. fold (decimalValue (d :: ds')). rewrite Hf.
    cbn [length Nat.add exponentPart].
    change (d :: ds' ++ fs) with ((d :: ds') ++ fs).
    unfold decimalValue. rewrite fold_left_app. reflexivity. }
  unfold numeral in *. destruct neg; cbn [app] in *.
  - injection E0 as <- <-. cbn [nonDecimal].
    cbn [N.eqb Pos.eqb]. exact Hun.
  - destruct ds as [|d ds']; [congruence|]. cbn [app] in *.
    injection E0 as <- <-.
    assert (Hd : (48 <= d <= 57)%N).
    { apply isDigit_range. now inversion Hds. }
    assert (End : nonDecimal (d :: ds' ++ 46%N :: fs) = None).
    { destruct (N.eq_dec d 48) as [E|E]; [|now apply nonDecimal_not_zero].
      subst d. destruct ds' as [|d' ds'']; cbn [app]; [reflexivity|].
      assert (Hd' : (48 <= d' <= 57)%N).
      { apply isDigit_range. inversion Hds as [|? ? _ Hds'].
        now inversion Hds'. }
      cbn [nonDecimal].
      units_differ d'. reflexivity. }
    rewrite End.
    units_differ d. exact Hun.
Qed.

(** C9.  The numeric normalizer returns [null] for an absent value and for
    a text that trims to the empty string; otherwise it removes every
    [$], [£], [€] and [,] from the trimmed text, keeps the other code units
    in their order, converts what remains to a Number, and returns that
    Number when it is finite and [null] when it is not.  Signs and
    fractions survive: a text that is left as a decimal numeral, signed or
    not, is normalized to the Number nearest to the value it writes, and
    the minus sign negates that Number; so do the listed examples. *)
Theorem parseNumber_normalizes :
  parseNumber Undefined = None /\ parseNumber Null = None
  /\ (forall raw, trim raw = [] -> parseNumber (Str raw) = None)
  /\ (forall raw, trim raw <> [] ->
        parseNumber (Str raw)
        = finite_or_null (Number (stripCurrency (trim raw))))
  /\ (forall s c,
        In c (stripCurrency s) <-> In c s /\ ~ In c CURRENCY_OR_COMMA)
  /\ (forall a b, stripCurrency (a ++ b) = stripCurrency a ++ stripCurrency b)
  /\ (forall s, (forall c, In c s -> ~ In c CURRENCY_OR_COMMA) ->
                stripCurrency s = s)
  /\ (forall v n, parseNumber v = Some n -> isFinite n = true)
  /\ (forall raw neg ds fs,
        trim raw <> [] ->
        stripCurrency (trim raw) = numeral neg ds fs ->
        ds <> [] ->
        Forall (fun c => isDigit c = true) ds ->
        Forall (fun c => isDigit c = true) fs ->
        parseNumber (Str raw)
        = finite_or_null
            (of_decimal neg (decimalValue (ds ++ fs))
                        (- Z.of_nat (length fs))))
  /\ (forall m e, of_decimal true m e = SFopp (of_decimal false m e))
  /\ parseNumber (Str (163%N :: lit "1,234.50")) = Some (Prim2SF 1234.5)
  /\ parseNumber (Str (lit "abc")) = None
  /\ parseNumber (Str (lit "")) = None
  /\ parseNumber (Str (lit "-3.5")) = Some (Prim2SF (-3.5)).
Proof.
  split; [reflexivity|]. split; [reflexivity|].
  split.
  { intros raw E. rewrite parseNumber_Str, E. reflexivity. }
  split.
  { intros raw E. rewrite parseNumber_Str.
    destruct (trim raw); [congruence | reflexivity]. }
  split; [exact stripCurrency_In|].
  split; [exact stripCurrency_app|].
  split; [exact stripCurrency_clean|].
  split; [exact parseNumber_finite|].
  split.
  { intros raw neg ds fs E Hs Hne Hds Hfs. rewrite parseNumber_Str.
    destruct (trim raw) eqn:Et; [congruence|]. cbn [is_empty].
    rewrite Hs, (Number_numeral neg Hne Hds Hfs). reflexivity. }
  split; [exact of_decimal_opp|].
  repeat split; vm_compute; reflexivity.
Qed.

(** ** Row cleaner *)

Section CleanRow.

Variable host : DateHost.

Lemma cleanRow_rating (row : RawRecord) :
  rating (cleanRow host row) =
    option_map clamp (parseNumber (prop row (lit "rating"))).
Proof.
  unfold cleanRow, clamp. cbv zeta. cbn [rating].
  destruct (parseNumber (prop row (lit "rating"))) as [r|]; [|reflexivity].
  cbn [option_map].
  destruct (lt r (nat_number 0)); cbn [rating set_rating].
  - reflexivity.
  - destruct (gt r (nat_number 5)); reflexivity.
Qed.

Lemma cleanRow_review (row : RawRecord) :
  review (cleanRow host row) =
    match prop row (lit "review") with
    | Undefined => None
    | v => Some (trim (String_or_empty v))
    end.
Proof.
  through_clamp.
Qed.

End CleanRow.

(** ** Rating clamp *)

Lemma nat_number_0 : nat_number 0 = S754_zero false.
Proof. reflexivity. Qed.

Lemma nat_number_5 : nat_number 5 = S754_finite false 5629499534213120 (-50).
Proof. vm_compute. reflexivity. Qed.

Lemma clamp_range (r : number) :
  isFinite r = true ->
  isFinite (clamp r) = true
  /\ SFleb (nat_number 0) (clamp r) = true
  /\ SFleb (clamp r) (nat_number 5) = true.
Proof.
  unfold clamp, lt, gt. rewrite nat_number_0, nat_number_5.
  destruct r as [s | s | | s m e]; try discriminate; intros _.
  - destruct s; repeat split; reflexivity.
  - destruct s.
    + repeat split; reflexivity.
    + unfold SFltb, SFleb. cbn [SFcompare].
      pose proof (Z.compare_antisym (-50) e) as Hz.
      pose proof (Pos.compare_cont_antisym 5629499534213120 m Eq) as Hp.
      cbn [CompOpp] in Hp.
      destruct (Z.compare (-50) e); cbn [CompOpp] in Hz.
      * destruct (Pos.compare_cont Eq 5629499534213120 m);
          cbn [CompOpp] in Hp; cbn [SFcompare isFinite];
          rewrite ?Hz, <- ?Hp; repeat split; reflexivity.
      * repeat split; reflexivity.
      * cbn [SFcompare isFinite]. rewrite Hz. repeat split; reflexivity.
Qed.

Section CleanRowClamp.

Variable host : DateHost.

(** C7.  Whenever the rating of a cleaned row is not [null] it is a finite
    Number between 0 and 5: a normalized rating below 0 becomes 0, one
    above 5 becomes 5 and any other is kept; ["7.2"] is cleaned to 5 and
    ["-1"] to 0. *)
Theorem cleanRow_rating_in_range (row : RawRecord) :
  (forall r, rating (cleanRow host row) = Some r ->
     isFinite r = true
     /\ SFleb (nat_number 0) r = true /\ SFleb r (nat_number 5) = true)
  /\ (forall n, parseNumber (prop row (lit "rating")) = Some n ->
        rating (cleanRow host row) =
          Some (if lt n (nat_number 0) then nat_number 0
                else if gt n (nat_number 5) then nat_number 5
                else n))
  /\ (parseNumber (prop row (lit "rating")) = None ->
        rating (cleanRow host row) = None)
  /\ rating (cleanRow host [(lit "rating", Str (lit "7.2"))])
     = Some (Prim2SF 5)
  /\ rating (cleanRow host [(lit "rating", Str (lit "-1"))])
     = Some (Prim2SF 0).
Proof.
  split.
  { intros r. rewrite cleanRow_rating.
    destruct (parseNumber (prop row (lit "rating"))) as [n|] eqn:E;
      [|discriminate].
    cbn [option_map]. intros H. injection H as <-.
    apply clamp_range. exact (parseNumber_finite _ E). }
  split.
  { intros n E. rewrite cleanRow_rating, E. reflexivity. }
  split.
  { intros E. rewrite cleanRow_rating, E. reflexivity. }
  split; rewrite cleanRow_rating; vm_compute; reflexivity.
Qed.

(** C2, where the code departs from the claim.  A record whose [review]
    column is present and blank is cleaned to a row whose [review] is the
    empty string, not [null]; the same blank text in the [product] column
    is cleaned to [null].  An absent [review] column gives [null]. *)
Theorem cleanRow_blank_review_is_empty_string :
  let row := [(lit "product", Str (lit "   "));
              (lit "price", Str (lit "10"));
              (lit "rating", Str (lit "4"));
              (lit "instock", Str (lit "yes"));
              (lit "launch_date", Str (lit "2024-01-05"));
              (lit "review", Str (lit "   "))] in
  review (cleanRow host row) = Some []
  /\ review (cleanRow host row) <> None
  /\ product (cleanRow host row) = None
  /\ review (cleanRow host (removelast row)) = None.
Proof.
  cbv zeta. rewrite !cleanRow_review.
  repeat split; try reflexivity. discriminate.
Qed.

End CleanRowClamp.

(** ** The aggregator never divides by zero *)

Lemma divide_quotient (x : number) (n : nat) :
  n <> 0 -> Done (quotient x n) = (q <- divide x n ;; Done (Some q)).
Proof. destruct n; [congruence | reflexivity]. Qed.

Lemma average_done (sum : number) (n : nat) :
  average sum n = Done (quotient sum n).
Proof. unfold average. destruct n; reflexivity. Qed.

Lemma finalize_done (m : Map MonthAcc) : finalize m = Done (map finalEntry m).
Proof.
  induction m as [|[k acc] m IH]; [reflexivity|].
  cbn [finalize]. rewrite !average_done, IH. reflexivity.
Qed.

(** The third component of the loop of [stats] is the running sum. *)
Lemma stats_loop_sum (arr : list number) (mn mx sum : number) :
  snd (fold_left
         (fun '(mn, mx, sum) x =>
            (if lt x mn then x else mn, if gt x mx then x else mx,
             add sum x))
         arr (mn, mx, sum))
  = fold_left add arr sum.
Proof.
  revert mn mx sum. induction arr as [|x arr IH]; intros; [reflexivity|].
  cbn [fold_left]. apply IH.
Qed.

Lemma stats_done (arr : list number) :
  exists s, stats arr = Done s
            /\ count s = length arr
            /\ mean s = quotient (total arr) (length arr)
            /\ (arr = [] -> s = emptyStats).
Proof.
  destruct arr as [|a0 arr].
  - exists emptyStats. repeat split; reflexivity.
  - unfold stats.
    pose proof (stats_loop_sum (a0 :: arr) a0 a0 (nat_number 0)) as Hsum.
    destruct (fold_left _ (a0 :: arr) (a0, a0, nat_number 0))
      as [[mn mx] sum].
    cbn [snd] in Hsum. subst sum.
    eexists. split; [reflexivity|].
    cbn [count mean]. repeat split. discriminate.
Qed.

(** ** The accumulators, one at a time *)

Lemma fold_step_numeric_price (rows : list CleanedRow) (a : Accumulators) :
  numeric_price (fold_left step rows a) = numeric_price a ++ values price rows.
Proof.
  revert a. induction rows as [|r rows IH]; intros a; cbn [fold_left].
  - symmetry. apply app_nil_r.
  - rewrite IH. cbn [step numeric_price]. unfold values. cbn [flat_map].
    destruct (price r); cbn [push_if]; [|reflexivity].
    now rewrite <- app_assoc.
Qed.

Lemma fold_step_numeric_rating (rows : list CleanedRow) (a : Accumulators) :
  numeric_rating (fold_left step rows a)
  = numeric_rating a ++ values rating rows.
Proof.
  revert a. induction rows as [|r rows IH]; intros a; cbn [fold_left].
  - symmetry. apply app_nil_r.
  - rewrite IH. cbn [step numeric_rating]. unfold values. cbn [flat_map].
    destruct (rating r); cbn [push_if]; [|reflexivity].
    now rewrite <- app_assoc.
Qed.

Lemma countInstock_total (c : InstockCounts) (r : CleanedRow) :
  instockTotal (countInstock c r) = S (instockTotal c).
Proof.
  unfold countInstock, instockTotal.
  destruct (instock r) as [[|]|]; cbn [count_true count_false count_null];
    lia.
Qed.

Lemma fold_step_instock (rows : list CleanedRow) (a : Accumulators) :
  instockTotal (acc_instock (fold_left step rows a))
  = instockTotal (acc_instock a) + length rows.
Proof.
  revert a. induction rows as [|r rows IH]; intros a; cbn [fold_left length].
  - lia.
  - rewrite IH. cbn [step acc_instock]. rewrite countInstock_total. lia.
Qed.

Lemma fold_step_missing_launch_date (rows : list CleanedRow) (a : Accumulators) :
  missing_launch_date (acc_missing (fold_left step rows a))
  = missing_launch_date (acc_missing a) + length (filter noLaunchDate rows).
Proof.
  revert a. induction rows as [|r rows IH]; intros a; cbn [fold_left filter].
  - cbn [length]. lia.
  - rewrite IH. cbn [step acc_missing countMissing missing_launch_date].
    unfold noLaunchDate. destruct (launch_date r); cbn [bump length]; lia.
Qed.

(** ** The result of [computeAnalytics] *)

Lemma computeAnalytics_done (rows : list CleanedRow) :
  exists a,
    computeAnalytics rows = Done a
    /\ totalRows a = length rows
    /\ missingCounts a = acc_missing (fold_left step rows initial)
    /\ stats (values price rows) = Done (stats_price a)
    /\ stats (values rating rows) = Done (stats_rating a)
    /\ instockCounts a = acc_instock (fold_left step rows initial)
    /\ monthly a =
         sort (fun x y => localeCompare (month x) (month y))
              (map finalEntry (monthAcc (fold_left step rows initial))).
Proof.
  unfold computeAnalytics. cbv zeta.
  rewrite finalize_done. cbn [bind].
  rewrite fold_step_numeric_price, fold_step_numeric_rating.
  cbn [initial numeric_price numeric_rating app].
  destruct (stats_done (values price rows)) as (sp & Hsp & _).
  destruct (stats_done (values rating rows)) as (sr & Hsr & _).
  rewrite Hsp, Hsr. cbn [bind].
  eexists. split; [reflexivity|].
  cbn [totalRows missingCounts stats_price stats_rating instockCounts monthly].
  repeat split; assumption.
Qed.

(** C8.  The statistics of an empty array are a count of 0 with [null]
    minimum, maximum and mean; [stats] never divides by zero, whatever the
    array, and neither does the aggregator, whatever the rows; a field
    with no non-null value in any row gets the empty statistics. *)
Theorem stats_empty_and_no_division_by_zero :
  stats [] = Done emptyStats
  /\ (forall arr, stats arr <> DivisionByZero)
  /\ (forall rows, computeAnalytics rows <> DivisionByZero)
  /\ (forall rows a,
        computeAnalytics rows = Done a ->
        (values price rows = [] -> stats_price a = emptyStats)
        /\ (values rating rows = [] -> stats_rating a = emptyStats)).
Proof.
  split; [reflexivity|].
  split.
  { intros arr. destruct (stats_done arr) as (s & Hs & _).
    rewrite Hs. discriminate. }
  split.
  { intros rows. destruct (computeAnalytics_done rows) as (a & Ha & _).
    rewrite Ha. discriminate. }
  intros rows a Ha.
  destruct (computeAnalytics_done rows)
    as (a' & Ha' & _ & _ & Hp & Hr & _).
  rewrite Ha in Ha'. injection Ha' as <-.
  split; intros E; [rewrite E in Hp | rewrite E in Hr];
    cbn [stats] in *; [injection Hp | injection Hr]; intros <-;
    reflexivity.
Qed.

Lemma fold_countInstock (rows : list CleanedRow) (a : Accumulators) :
  let c := acc_instock (fold_left step rows a) in
  count_true c
  = count_true (acc_instock a) + length (filter (instockIs (Some true)) rows)
  /\ count_false c
     = count_false (acc_instock a)
       + length (filter (instockIs (Some false)) rows)
  /\ count_null c
     = count_null (acc_instock a) + length (filter (instockIs None) rows).
Proof.
  revert a. induction rows as [|r rows IH]; intros a.
  - cbn. repeat split; lia.
  - cbn [fold_left]. cbv zeta.
    destruct (IH (step a r)) as (H1 & H2 & H3). rewrite H1, H2, H3.
    cbn [step acc_instock filter]. unfold countInstock, instockIs.
    destruct (instock r) as [[|]|];
      cbn [count_true count_false count_null length]; repeat split; lia.
Qed.

(** C10.  For every row set the aggregator returns; [totalRows] is the
    number of rows, each of the three instock counters is the number of
    rows whose [instock] is [true], [false] or [null], every row is
    counted by exactly one of them, and so the three counters add up to
    [totalRows].  In the loop every row adds one to exactly one
    counter. *)
Theorem instockCounts_sum_to_totalRows (rows : list CleanedRow) :
  (exists a,
     computeAnalytics rows = Done a
     /\ totalRows a = length rows
     /\ count_true (instockCounts a)
        = length (filter (instockIs (Some true)) rows)
     /\ count_false (instockCounts a)
        = length (filter (instockIs (Some false)) rows)
     /\ count_null (instockCounts a)
        = length (filter (instockIs None) rows)
     /\ count_true (instockCounts a) + count_false (instockCounts a)
        + count_null (instockCounts a) = length rows
     /\ count_true (instockCounts a) + count_false (instockCounts a)
        + count_null (instockCounts a) = totalRows a)
  /\ (forall r,
        (if instockIs (Some true) r then 1 else 0)
        + (if instockIs (Some false) r then 1 else 0)
        + (if instockIs None r then 1 else 0) = 1)
  /\ (forall c r,
        countInstock c r =
          {| count_true := S (count_true c); count_false := count_false c;
             count_null := count_null c |}
        /\ instock r = Some true
        \/ countInstock c r =
             {| count_true := count_true c;
                count_false := S (count_false c);
                count_null := count_null c |}
           /\ instock r = Some false
        \/ countInstock c r =
             {| count_true := count_true c; count_false := count_false c;
                count_null := S (count_null c) |}
           /\ instock r = None).
Proof.
  split; [|split].
  - destruct (computeAnalytics_done rows)
      as (a & Ha & Ht & _ & _ & _ & Hi & _).
    exists a. split; [exact Ha|]. split; [exact Ht|].
    destruct (fold_countInstock rows initial) as (I1 & I2 & I3).
    cbv zeta in I1, I2, I3. rewrite <- Hi in I1, I2, I3.
    cbn [initial acc_instock count_true count_false count_null Nat.add]
      in I1, I2, I3.
    pose proof (fold_step_instock rows initial) as H.
    unfold instockTotal in H. rewrite <- Hi in H.
    cbn [initial acc_instock count_true count_false count_null Nat.add] in H.
    repeat split; try assumption. now rewrite Ht.
  - intros r. unfold instockIs. destruct (instock r) as [[|]|]; reflexivity.
  - intros c r. unfold countInstock.
    destruct (instock r) as [[|]|]; rewrite ?Nat.add_1_r; auto.
Qed.

(** ** Header validator and upload handler *)

Lemma validateColumns_missing (headers : list jstring) (c : jstring) :
  In c (missing (validateColumns headers))
  <-> In c REQUIRED_COLUMNS /\ ~ In c headers.
Proof.
  unfold validateColumns. cbn [missing].
  rewrite filter_In, negb_true_iff, includes_not_In. reflexivity.
Qed.

Lemma NoDup_REQUIRED_COLUMNS : NoDup REQUIRED_COLUMNS.
Proof.
  unfold REQUIRED_COLUMNS.
  repeat (constructor; [cbn [In]; intuition discriminate|]).
  constructor.
Qed.

Lemma length_zero_nil (A : Type) (l : list A) :
  Nat.eqb (length l) 0 = true <-> l = [].
Proof. destruct l; cbn; split; congruence. Qed.

Lemma In_firstn (A : Type) (n : nat) (l : list A) (x : A) :
  In x (firstn n l) -> In x l.
Proof.
  intros H. rewrite <- (firstn_skipn n l). apply in_or_app. now left.
Qed.

Section Upload.

Variable host : DateHost.

(** C4.  When a required column is not among the headers of the input,
    the handler answers with the schema error: its details are the
    required columns that are missing (each once, in the order of the
    required list, and no other), the required list and the headers found.
    The answer carries no analytics and is the same for every input with
    these headers, whatever its rows.  Headers [product, price] leave
    [rating, instock, launch_date] missing. *)
Theorem upload_missing_column_is_schema_error (records : list RawRecord) :
  (exists c, In c REQUIRED_COLUMNS /\ ~ In c (headersOf records)) ->
  (exists m,
     upload host records =
       Done (SchemaError
               (lit "CSV structure invalid: missing required columns.")
               m REQUIRED_COLUMNS (headersOf records))
     /\ m = filter (fun c => negb (includes (headersOf records) c))
                   REQUIRED_COLUMNS
     /\ NoDup m
     /\ (forall c, In c m <->
                   In c REQUIRED_COLUMNS /\ ~ In c (headersOf records)))
  /\ (forall records', headersOf records' = headersOf records ->
                       upload host records' = upload host records)
  /\ missing (validateColumns [lit "product"; lit "price"])
     = [lit "rating"; lit "instock"; lit "launch_date"].
Proof.
  intros (c & Hreq & Hnot).
  assert (Hm : Nat.eqb (length (missing (validateColumns (headersOf records)))) 0
               = false).
  { destruct (Nat.eqb _ 0) eqn:E; [|reflexivity].
    apply length_zero_nil in E.
    assert (Hin : In c (missing (validateColumns (headersOf records))))
      by (apply validateColumns_missing; auto).
    rewrite E in Hin. destruct Hin. }
  split; [|split].
  - exists (missing (validateColumns (headersOf records))).
    split.
    { unfold upload. cbv zeta. rewrite Hm. reflexivity. }
    split; [reflexivity|].
    split.
    { apply NoDup_filter, NoDup_REQUIRED_COLUMNS. }
    intros d. apply validateColumns_missing.
  - intros records' E. unfold upload. cbv zeta. rewrite E, Hm. reflexivity.
  - reflexivity.
Qed.

Lemma upload_valid (records : list RawRecord) :
  missing (validateColumns (headersOf records)) = [] ->
  exists a,
    computeAnalytics (rowFilter (map (cleanRow host) records)) = Done a
    /\ upload host records =
         Done (Success
                 (if negb (Nat.eqb
                             (length (unexpected
                                        (validateColumns (headersOf records))))
                             0)
                  then Some (unexpected (validateColumns (headersOf records)))
                  else None)
                 a
                 (firstn 8 (rowFilter (map (cleanRow host) records)))).
Proof.
  intros Hv.
  destruct (computeAnalytics_done (rowFilter (map (cleanRow host) records)))
    as (a & Ha & _).
  exists a. split; [exact Ha|].
  unfold upload. cbv zeta. rewrite Hv. cbn [length Nat.eqb negb].
  rewrite Ha. reflexivity.
Qed.

(** C3 (as the code has it).  For an input that passes the header
    validation the handler answers with success, and [sampleCleanedRows]
    holds the first 8 rows of the filtered row set, the cleaned rows that
    the row filter keeps, in the order of the input (all of them when
    fewer than 8 are kept).  When the filter drops no row these are the
    first 8 cleaned rows of the input. *)
Theorem upload_sample_is_first_8_kept_rows (records : list RawRecord) :
  missing (validateColumns (headersOf records)) = [] ->
  exists warnings a sample,
    upload host records = Done (Success warnings a sample)
    /\ sample = firstn 8 (rowFilter (map (cleanRow host) records))
    /\ length sample
       = Nat.min 8 (length (rowFilter (map (cleanRow host) records)))
    /\ (forall c, In c sample ->
                  informative c = true
                  /\ exists r, In r records /\ c = cleanRow host r)
    /\ (forallb informative (map (cleanRow host) records) = true ->
        sample = firstn 8 (map (cleanRow host) records)).
Proof.
  intros Hv. destruct (upload_valid records Hv) as (a & _ & Hup).
  do 3 eexists. split; [exact Hup|].
  split; [reflexivity|].
  split; [apply length_firstn|].
  split.
  - intros c Hc. apply In_firstn in Hc.
    unfold rowFilter in Hc. apply filter_In in Hc as [Hin Hinf].
    split; [exact Hinf|].
    apply in_map_iff in Hin as (r & <- & Hr). now exists r.
  - intros Hall. unfold rowFilter.
    rewrite forallb_filter_id; [reflexivity | exact Hall].
Qed.

End Upload.

Lemma upload_missing_column_is_schema_error_witness :
  exists m,
    upload isoOnlyHost
      [[(lit "product", Str (lit "Widget")); (lit "price", Str (lit "1"))]]
    = Done (SchemaError
              (lit "CSV structure invalid: missing required columns.")
              m REQUIRED_COLUMNS [lit "product"; lit "price"])
    /\ m = [lit "rating"; lit "instock"; lit "launch_date"].
Proof.
  destruct (@upload_missing_column_is_schema_error isoOnlyHost
              [[(lit "product", Str (lit "Widget"));
                (lit "price", Str (lit "1"))]])
    as ((m & Hup & Hm & _) & _).
  - exists (lit "rating"). split.
    + vm_compute. auto.
    + vm_compute. intuition discriminate.
  - exists m. split; [exact Hup | exact Hm].
Defined.

Lemma upload_sample_is_first_8_kept_rows_witness :
  exists warnings a sample,
    upload isoOnlyHost [blankRecord; widgetRecord]
    = Done (Success warnings a sample)
    /\ sample = [cleanRow isoOnlyHost widgetRecord].
Proof.
  destruct (@upload_sample_is_first_8_kept_rows isoOnlyHost
              [blankRecord; widgetRecord])
    as (w & a & sample & Hup & Hs & _).
  - vm_compute. reflexivity.
  - exists w, a, sample. split; [exact Hup|].
    rewrite Hs. vm_compute. reflexivity.
Defined.

(** C3 (as the specification states it) fails: a blank line followed by
    the widget line passes the validation, and the sample holds the widget
    row alone, not the first cleaned rows of the input, of which there are
    two. *)
Lemma upload_sample_is_not_first_cleaned_rows :
  exists warnings a sample,
    upload isoOnlyHost [blankRecord; widgetRecord]
    = Done (Success warnings a sample)
    /\ sample = [cleanRow isoOnlyHost widgetRecord]
    /\ firstn 8 (map (cleanRow isoOnlyHost) [blankRecord; widgetRecord])
       = [cleanRow isoOnlyHost blankRecord; cleanRow isoOnlyHost widgetRecord]
    /\ sample
       <> firstn 8 (map (cleanRow isoOnlyHost) [blankRecord; widgetRecord]).
Proof.
  destruct (@upload_valid isoOnlyHost [blankRecord; widgetRecord])
    as (a & _ & Hup); [vm_compute; reflexivity|].
  do 3 eexists. split; [exact Hup|].
  split; [vm_compute; reflexivity|].
  split; [reflexivity|].
  vm_compute. discriminate.
Qed.

(** ** Row filter *)

Lemma rowFilter_drop (c : CleanedRow) (before after : list CleanedRow) :
  informative c = false ->
  rowFilter (before ++ c :: after) = rowFilter (before ++ after).
Proof.
  intros H. unfold rowFilter. rewrite !filter_app. cbn [filter].
  now rewrite H.
Qed.

(** C6.  A cleaned row whose product, price, rating, instock and
    launch_date are all [null] is dropped by the row filter, whatever its
    review: it is in no filtered row set, the filtered row set is the one
    of the input without the row, and so are the analytics (totalRows,
    missing counts, statistics, product ranking, instock counters and
    monthly series) and the whole answer of the upload handler. *)
Theorem rowFilter_drops_rows_without_tracked_values (c : CleanedRow) :
  product c = None -> price c = None -> rating c = None ->
  instock c = None -> launch_date c = None ->
  informative c = false
  /\ (forall rows, ~ In c (rowFilter rows))
  /\ (forall before after,
        rowFilter (before ++ c :: after) = rowFilter (before ++ after))
  /\ (forall before after,
        computeAnalytics (rowFilter (before ++ c :: after))
        = computeAnalytics (rowFilter (before ++ after)))
  /\ (forall host first before r after,
        cleanRow host r = c ->
        upload host (first :: before ++ r :: after)
        = upload host (first :: before ++ after)).
Proof.
  intros Hp Hpr Hr Hi Hd.
  assert (H : informative c = false).
  { unfold informative. now rewrite Hp, Hpr, Hr, Hi, Hd. }
  split; [exact H|].
  split.
  { intros rows Hin. unfold rowFilter in Hin.
    apply filter_In in Hin as [_ Hin]. congruence. }
  split; [intros; now apply rowFilter_drop|].
  split; [intros; now rewrite rowFilter_drop|].
  intros host first before r after E.
  unfold upload. cbv zeta. cbn [headersOf].
  assert (Hrows :
            rowFilter (map (cleanRow host) (first :: before ++ r :: after))
            = rowFilter (map (cleanRow host) (first :: before ++ after))).
  { cbn [map]. rewrite !map_app. cbn [map]. rewrite E.
    apply (rowFilter_drop c (cleanRow host first :: map (cleanRow host) before)
             (map (cleanRow host) after) H). }
  rewrite Hrows. reflexivity.
Qed.

Lemma rowFilter_drops_rows_without_tracked_values_witness :
  let c := {| product := None; price := None; rating := None;
              instock := None; review := Some (lit "fine");
              launch_date := None |} in
  informative c = false
  /\ computeAnalytics (rowFilter [c]) = computeAnalytics (rowFilter []).
Proof.
  intros c.
  destruct (@rowFilter_drops_rows_without_tracked_values c)
    as (H & _ & _ & Ha & _); try reflexivity.
  split; [exact H | exact (Ha [] [])].
Defined.

(** ** Maps *)

Section MapFacts.

Variable V : Type.
Implicit Types (m : Map V) (k : jstring) (v : V).

Lemma Map_get_set_same m k v : Map_get (Map_set m k v) k = Some v.
Proof.
  induction m as [|[k' v'] m IH]; cbn [Map_set Map_get].
  - now rewrite str_eqb_refl.
  - destruct (str_eqb k k') eqn:E; cbn [Map_get]; rewrite E; auto.
Qed.

Lemma Map_get_set_other m k k' v :
  k' <> k -> Map_get (Map_set m k v) k' = Map_get m k'.
Proof.
  intros Hne. induction m as [|[k0 v0] m IH]; cbn [Map_set Map_get].
  - apply str_eqb_neq in Hne. now rewrite Hne.
  - destruct (str_eqb k k0) eqn:E; cbn [Map_get].
    + apply str_eqb_eq in E. subst k0.
      apply str_eqb_neq in Hne. now rewrite Hne.
    + now rewrite IH.
Qed.

Lemma Map_get_None m k : Map_get m k = None <-> ~ In k (map fst m).
Proof.
  induction m as [|[k' v'] m IH]; cbn [Map_get map fst In].
  - tauto.
  - destruct (str_eqb k k') eqn:E.
    + apply str_eqb_eq in E. subst. split; [discriminate | tauto].
    + apply str_eqb_neq in E. rewrite IH. split; [|tauto].
      intros H [H1|H1]; [congruence | tauto].
Qed.

Lemma Map_get_In m k v : Map_get m k = Some v -> In (k, v) m.
Proof.
  induction m as [|[k' v'] m IH]; cbn [Map_get In]; [discriminate|].
  destruct (str_eqb k k') eqn:E.
  - apply str_eqb_eq in E. intros H. injection H as ->. subst. now left.
  - intros H. right. now apply IH.
Qed.

Lemma Map_In_get m k v :
  NoDup (map fst m) -> In (k, v) m -> Map_get m k = Some v.
Proof.
  induction m as [|[k' v'] m IH]; cbn [map fst In Map_get]; [tauto|].
  intros Hnd [H|H].
  - injection H as -> ->. now rewrite str_eqb_refl.
  - apply NoDup_cons_iff in Hnd as [Hnot Hnd].
    destruct (str_eqb k k') eqn:E.
    + apply str_eqb_eq in E. subst. exfalso. apply Hnot.
      apply in_map_iff. now exists (k', v).
    + now apply IH.
Qed.

Lemma Map_set_keys m k v :
  map fst (Map_set m k v)
  = if includes (map fst m) k then map fst m else map fst m ++ [k].
Proof.
  induction m as [|[k' v'] m IH]; [reflexivity|].
  cbn [Map_set map fst]. unfold includes in *. cbn [existsb].
  destruct (str_eqb k k') eqn:E; cbn [orb map fst]; [reflexivity|].
  rewrite IH. destruct (existsb (str_eqb k) (map fst m)); reflexivity.
Qed.

Lemma Map_set_NoDup m k v :
  NoDup (map fst m) -> NoDup (map fst (Map_set m k v)).
Proof.
  intros H. rewrite Map_set_keys.
  destruct (includes (map fst m) k) eqn:E; [exact H|].
  apply includes_not_In in E.
  apply NoDup_app; [exact H | repeat constructor; intros [] |].
  intros x Hx [<-|[]]. contradiction.
Qed.

End MapFacts.

(** ** Sorting *)

Section SortFacts.

Variable A : Type.
Variable cmp : A -> A -> Z.
Hypothesis cmp_total : forall x y, (0 < cmp x y)%Z -> (cmp y x <= 0)%Z.

Lemma insert_perm (x : A) (l : list A) : Permutation (insert cmp x l) (x :: l).
Proof.
  induction l as [|y l IH]; cbn [insert]; [reflexivity|].
  destruct (cmp x y <=? 0)%Z; [reflexivity|].
  rewrite IH. apply perm_swap.
Qed.

Lemma sort_perm (l : list A) : Permutation (sort cmp l) l.
Proof.
  induction l as [|x l IH]; [reflexivity|].
  cbn [sort fold_right]. fold (sort cmp l).
  rewrite insert_perm. now constructor.
Qed.

Lemma insert_sorted (x : A) (l : list A) :
  Sorted (fun x y => (cmp x y <= 0)%Z) l ->
  Sorted (fun x y => (cmp x y <= 0)%Z) (insert cmp x l).
Proof.
  induction l as [|y l IH]; intros Hs; cbn [insert].
  - repeat constructor.
  - destruct (Z.leb_spec (cmp x y) 0) as [Hle|Hgt].
    + constructor; [exact Hs | constructor; exact Hle].
    + apply Sorted_inv in Hs as [Hs Hhd].
      constructor; [now apply IH|].
      destruct l as [|z l]; cbn [insert].
      * constructor. now apply cmp_total.
      * destruct (cmp x z <=? 0)%Z; constructor.
        -- now apply cmp_total.
        -- now apply HdRel_inv in Hhd.
Qed.

Lemma sort_sorted (l : list A) :
  Sorted (fun x y => (cmp x y <= 0)%Z) (sort cmp l).
Proof.
  induction l as [|x l IH]; [constructor|].
  cbn [sort fold_right]. now apply insert_sorted.
Qed.

End SortFacts.

(** ** The order of month keys *)

Lemma localeCompare_lt (a b : jstring) :
  (localeCompare a b < 0)%Z <-> lex_lt a b.
Proof.
  revert b. induction a as [|x a IH]; intros [|y b]; cbn [localeCompare].
  - split; [lia | intros H; inversion H].
  - split; [constructor | lia].
  - split; [lia | intros H; inversion H].
  - destruct (N.compare_spec x y) as [E|L|G].
    + subst. rewrite IH. split; [now constructor|].
      intros H. inversion H; subst; [lia | assumption].
    + split; [now constructor | lia].
    + split; [lia|]. intros H. inversion H; subst; [lia|lia].
Qed.

Lemma localeCompare_eq (a b : jstring) : localeCompare a b = 0%Z <-> a = b.
Proof.
  revert b. induction a as [|x a IH]; intros [|y b]; cbn [localeCompare];
    try (split; [lia | discriminate]); [tauto|].
  destruct (N.compare_spec x y) as [E|L|G].
  - subst. rewrite IH. split; congruence.
  - split; [lia|]. intros H. injection H as -> _. lia.
  - split; [lia|]. intros H. injection H as -> _. lia.
Qed.

Lemma localeCompare_antisym (a b : jstring) :
  localeCompare b a = (- localeCompare a b)%Z.
Proof.
  revert b. induction a as [|x a IH]; intros [|y b]; cbn [localeCompare];
    try reflexivity.
  rewrite (N.compare_antisym x y).
  destruct (N.compare x y); cbn [CompOpp]; auto.
Qed.

Lemma lex_lt_trans (a b c : jstring) : lex_lt a b -> lex_lt b c -> lex_lt a c.
Proof.
  intros Hab. revert c. induction Hab; intros c' Hbc; inversion Hbc; subst.
  - constructor.
  - constructor.
  - constructor. lia.
  - now constructor.
  - now constructor.
  - apply lex_lt_tail. now apply IHHab.
Qed.

Lemma lex_lt_irrefl (a : jstring) : ~ lex_lt a a.
Proof.
  intros H. apply localeCompare_lt in H.
  assert (E : localeCompare a a = 0%Z) by now apply localeCompare_eq.
  lia.
Qed.

(** ** The monthly accumulators *)

Lemma values_app (f : CleanedRow -> option number) (a b : list CleanedRow) :
  values f (a ++ b) = values f a ++ values f b.
Proof. apply flat_map_app. Qed.

Lemma total_snoc (xs : list number) (x : number) :
  total (xs ++ [x]) = add (total xs) x.
Proof. unfold total. now rewrite fold_left_app. Qed.

Lemma summary_snoc (b : list CleanedRow) (r : CleanedRow) :
  summary (b ++ [r]) = accumulate (summary b) r.
Proof.
  unfold summary, accumulate.
  cbn [acc_count priceSum priceN ratingSum ratingN].
  rewrite !values_app, !length_app. unfold values at 2 4 6 8.
  cbn [flat_map length].
  destruct (price r), (rating r); cbn [app length];
    rewrite ?total_snoc, ?app_nil_r, ?Nat.add_0_r; reflexivity.
Qed.

Lemma monthAcc_invariant (rows : list CleanedRow) :
  NoDup (map fst (monthAcc (fold_left step rows initial)))
  /\ forall k,
       Map_get (monthAcc (fold_left step rows initial)) k
       = match filter (keyed k) rows with
         | [] => None
         | _ :: _ => Some (summary (filter (keyed k) rows))
         end.
Proof.
  induction rows as [|r rows [IHnd IH]] using rev_ind.
  - split; [constructor | reflexivity].
  - rewrite fold_left_app. cbn [fold_left step monthAcc].
    set (m := monthAcc (fold_left step rows initial)) in *.
    unfold countMonth.
    destruct (monthKey r) as [k0|] eqn:Ek.
    + split; [now apply Map_set_NoDup|].
      intros k. rewrite filter_app. cbn [filter]. unfold keyed at 2 4.
      rewrite Ek.
      assert (Hacc : match Map_get m k0 with
                     | Some acc => acc
                     | None => emptyMonthAcc
                     end = summary (filter (keyed k0) rows)).
      { rewrite IH. destruct (filter (keyed k0) rows); reflexivity. }
      rewrite Hacc, <- summary_snoc.
      destruct (str_eqb k k0) eqn:E.
      * apply str_eqb_eq in E. subst k0. rewrite Map_get_set_same.
        destruct (filter (keyed k) rows); reflexivity.
      * apply str_eqb_neq in E. rewrite Map_get_set_other by exact E.
        rewrite app_nil_r. apply IH.
    + split; [exact IHnd|].
      intros k. rewrite filter_app. cbn [filter]. unfold keyed at 2 4.
      rewrite Ek, app_nil_r. apply IH.
Qed.

Lemma month_finalEntry (m : Map MonthAcc) :
  map month (map finalEntry m) = map fst m.
Proof. rewrite map_map. reflexivity. Qed.

Lemma Sorted_le_lt (l : list MonthEntry) :
  Sorted (fun x y => (localeCompare (month x) (month y) <= 0)%Z) l ->
  NoDup (map month l) ->
  Sorted (fun x y => lex_lt (month x) (month y)) l.
Proof.
  induction l as [|e l IH]; intros Hs Hnd; [constructor|].
  apply Sorted_inv in Hs as [Hs Hhd].
  cbn [map] in Hnd. apply NoDup_cons_iff in Hnd as [Hnot Hnd].
  constructor; [now apply IH|].
  destruct l as [|e' l]; constructor.
  apply HdRel_inv in Hhd. apply localeCompare_lt.
  assert (Hne : localeCompare (month e) (month e') <> 0%Z).
  { intros E. apply localeCompare_eq in E. apply Hnot. cbn [map In].
    now left. }
  lia.
Qed.

(** The month entries of the aggregator, for any rows. *)
Lemma monthly_entries (rows : list CleanedRow) (a : Analytics) :
  computeAnalytics rows = Done a ->
  NoDup (map month (monthly a))
  /\ (forall k, In k (map month (monthly a)) <->
                exists r, In r rows /\ monthKey r = Some k)
  /\ (forall e, In e (monthly a) ->
                e = finalEntry
                      (month e, summary (filter (keyed (month e)) rows)))
  /\ StronglySorted (fun x y => lex_lt (month x) (month y)) (monthly a).
Proof.
  intros Ha.
  destruct (computeAnalytics_done rows) as (a' & Ha' & _ & _ & _ & _ & _ & Hm).
  rewrite Ha in Ha'. injection Ha' as <-.
  destruct (monthAcc_invariant rows) as [Hnd Hget].
  set (m := monthAcc (fold_left step rows initial)) in *.
  set (cmp := fun x y : MonthEntry => localeCompare (month x) (month y)) in *.
  assert (Hperm : Permutation (monthly a) (map finalEntry m)).
  { rewrite Hm. apply sort_perm. }
  assert (Hkeys : Permutation (map month (monthly a)) (map fst m)).
  { rewrite <- month_finalEntry. now apply Permutation_map. }
  assert (Hnd' : NoDup (map month (monthly a))).
  { apply (Permutation_NoDup (Permutation_sym Hkeys) Hnd). }
  split; [exact Hnd'|].
  split.
  { intros k. split.
    - intros Hin. apply (Permutation_in _ Hkeys) in Hin.
      destruct (Map_get m k) as [acc|] eqn:E.
      + rewrite Hget in E.
        destruct (filter (keyed k) rows) as [|r b] eqn:Eb; [discriminate|].
        assert (Hr : In r (filter (keyed k) rows)) by (rewrite Eb; now left).
        apply filter_In in Hr as [Hr Hk]. exists r. split; [exact Hr|].
        unfold keyed in Hk. destruct (monthKey r) as [k'|]; [|discriminate].
        apply str_eqb_eq in Hk. now subst.
      + apply Map_get_None in E. contradiction.
    - intros (r & Hr & Hk).
      apply (Permutation_in _ (Permutation_sym Hkeys)).
      destruct (in_dec (list_eq_dec N.eq_dec) k (map fst m)) as [H|H];
        [exact H|].
      apply Map_get_None in H. rewrite Hget in H.
      assert (Hin : In r (filter (keyed k) rows)).
      { apply filter_In. split; [exact Hr|]. unfold keyed. rewrite Hk.
        apply str_eqb_refl. }
      destruct (filter (keyed k) rows); [destruct Hin | discriminate]. }
  split.
  { intros e He. apply (Permutation_in _ Hperm) in He.
    apply in_map_iff in He as ([k acc] & <- & Hin).
    cbn [finalEntry month fst snd].
    apply (Map_In_get _ _ _ Hnd) in Hin. rewrite Hget in Hin.
    destruct (filter (keyed k) rows); [discriminate|].
    injection Hin as <-. reflexivity. }
  apply Sorted_StronglySorted.
  { intros x y z. apply lex_lt_trans. }
  apply Sorted_le_lt; [|exact Hnd'].
  rewrite Hm. apply sort_sorted.
  intros x y H. unfold cmp in *. rewrite localeCompare_antisym. lia.
Qed.

(** ** Launch dates of cleaned rows *)

Lemma isoMatch_length (s : jstring) : isoMatch s = true -> length s = 10.
Proof.
  do 11 (destruct s as [|? s]; try discriminate). reflexivity.
Qed.

Lemma String_of_Z_length (z : Z) : 1 <= length (String_of_Z z).
Proof.
  unfold String_of_Z, lit. rewrite length_map.
  destruct (Z.to_int z) as [d|d]; [destruct d|]; simpl; lia.
Qed.

Lemma padStart2_length (s : jstring) : 2 <= length (padStart2 s).
Proof. unfold padStart2. rewrite length_app, repeat_length. lia. Qed.

Section LaunchDate.

Variable host : DateHost.

Lemma parseDateISO_length (v : value) (d : jstring) :
  parseDateISO host v = Some d -> 7 <= length d.
Proof.
  destruct v as [| |raw]; try discriminate. unfold parseDateISO.
  destruct (is_empty (trim raw)); [discriminate|].
  destruct (isoMatch (trim raw)) eqn:E.
  - intros H. injection H as <-. apply isoMatch_length in E. lia.
  - destruct (Date_parse host (trim raw)) as [t|]; [|discriminate].
    intros H. injection H as <-.
    rewrite length_app. cbn [length]. rewrite length_app. cbn [length].
    pose proof (String_of_Z_length (getFullYear host t)).
    pose proof (padStart2_length (String_of_Z (getMonth host t + 1))).
    pose proof (padStart2_length (String_of_Z (getDate host t))).
    lia.
Qed.

Lemma cleanRow_launch_date (row : RawRecord) :
  launch_date (cleanRow host row)
  = parseDateISO host (prop row (lit "launch_date")).
Proof.
  through_clamp.
Qed.

Lemma finalRows_launch_date (records : list RawRecord) (r : CleanedRow)
      (d : jstring) :
  In r (rowFilter (map (cleanRow host) records)) ->
  launch_date r = Some d -> 7 <= length d.
Proof.
  unfold rowFilter. rewrite filter_In, in_map_iff.
  intros [(row & <- & _) _]. rewrite cleanRow_launch_date.
  apply parseDateISO_length.
Qed.

End LaunchDate.

Lemma monthKey_long (r : CleanedRow) :
  (forall d, launch_date r = Some d -> 7 <= length d) ->
  monthKey r = option_map (slice0 7) (launch_date r)
  /\ forall k, keyed k r = inMonth k r.
Proof.
  intros H. unfold keyed, inMonth, monthKey.
  destruct (launch_date r) as [d|]; [|split; reflexivity].
  specialize (H d eq_refl). destruct d; [cbn in H; lia|].
  split; reflexivity.
Qed.

Lemma filter_keyed_bucket (rows : list CleanedRow) (k : jstring) :
  (forall r d, In r rows -> launch_date r = Some d -> 7 <= length d) ->
  filter (keyed k) rows = bucket k rows.
Proof.
  intros H. unfold bucket. apply filter_ext_in. intros r Hr.
  apply monthKey_long. intros d. now apply H.
Qed.

Lemma isoMatch_month_key (d : jstring) :
  isoMatch d = true -> isMonthKey (slice0 7 d) = true.
Proof.
  intros H. do 11 (destruct d as [|? d]; try discriminate).
  cbn [isoMatch] in H. cbn [slice0 firstn isMonthKey].
  repeat match goal with
         | H : _ && _ = true |- _ => apply andb_true_iff in H as [H ?]
         end.
  repeat match goal with
         | H : _ = true |- _ => rewrite H; clear H
         end.
  reflexivity.
Qed.

Section Monthly.

Variable host : DateHost.

(** X18.  For the filtered row set of any input the aggregator returns,
    and its monthly series has one entry for each distinct 7-code-unit
    prefix of the non-null launch dates and no other.  The entry of a
    month holds the number of rows of that month and, for price and for
    rating, the sum of the non-null values of these rows divided by their
    number, or [null] when there is none.  The entries are in strictly
    ascending lexicographic order of their keys.  A row without launch
    date is in the rows of no month; it counts in [totalRows], in the
    missing count of [launch_date] and in the instock counters.  The key
    of a launch date of the shape dddd-dd-dd has the shape of a month,
    dddd-dd. *)
Theorem monthly_series_of_filtered_rows (records : list RawRecord) :
  let rows := rowFilter (map (cleanRow host) records) in
  exists a,
    computeAnalytics rows = Done a
    /\ NoDup (map month (monthly a))
    /\ (forall k, In k (map month (monthly a)) <->
                  exists r d, In r rows /\ launch_date r = Some d
                              /\ k = slice0 7 d)
    /\ (forall e, In e (monthly a) ->
          length (month e) = 7
          /\ month_count e = length (bucket (month e) rows)
          /\ avgPrice e =
               quotient (total (values price (bucket (month e) rows)))
                        (length (values price (bucket (month e) rows)))
          /\ avgRating e =
               quotient (total (values rating (bucket (month e) rows)))
                        (length (values rating (bucket (month e) rows))))
    /\ StronglySorted (fun x y => lex_lt (month x) (month y)) (monthly a)
    /\ (forall r k, launch_date r = None -> inMonth k r = false)
    /\ totalRows a = length rows
    /\ missing_launch_date (missingCounts a)
       = length (filter noLaunchDate rows)
    /\ count_true (instockCounts a) + count_false (instockCounts a)
       + count_null (instockCounts a) = length rows
    /\ (exists b,
          computeAnalytics [datedRow "2024-02-10"; datedRow "2024-01-05";
                            datedRow "2024-02-11"] = Done b
          /\ map (fun e => (month e, month_count e)) (monthly b)
             = [(lit "2024-01", 1); (lit "2024-02", 2)])
    /\ (forall d, isoMatch d = true -> isMonthKey (slice0 7 d) = true).
Proof.
  intros rows.
  assert (Hlen : forall r d, In r rows -> launch_date r = Some d ->
                             7 <= length d).
  { intros r d. apply finalRows_launch_date. }
  destruct (computeAnalytics_done rows)
    as (a & Ha & Ht & Hmiss & _ & _ & Hi & _).
  destruct (monthly_entries rows Ha) as (Hnd & Hkeys & Hent & Hsorted).
  exists a. split; [exact Ha|]. split; [exact Hnd|].
  split.
  { intros k. rewrite Hkeys. split.
    - intros (r & Hr & Hk).
      destruct (monthKey_long r (fun d => Hlen r d Hr)) as [E _].
      rewrite E in Hk. destruct (launch_date r) as [d|] eqn:Ed;
        [|discriminate].
      injection Hk as <-. now exists r, d.
    - intros (r & d & Hr & Hd & ->). exists r. split; [exact Hr|].
      destruct (monthKey_long r (fun d => Hlen r d Hr)) as [E _].
      rewrite E, Hd. reflexivity. }
  split.
  { intros e He.
    split.
    { assert (Hin : In (month e) (map month (monthly a)))
        by now apply in_map.
      apply Hkeys in Hin as (r & Hr & Hk).
      destruct (monthKey_long r (fun d => Hlen r d Hr)) as [E _].
      rewrite E in Hk. destruct (launch_date r) as [d|] eqn:Ed;
        [|discriminate].
      cbn [option_map] in Hk.
      assert (Hm : month e = firstn 7 d) by (unfold slice0 in Hk; congruence).
      rewrite Hm, length_firstn.
      specialize (Hlen r d Hr Ed). lia. }
    specialize (Hent e He).
    rewrite (filter_keyed_bucket rows (month e) Hlen) in Hent.
    pose proof (f_equal month_count Hent) as H1.
    pose proof (f_equal avgPrice Hent) as H2.
    pose proof (f_equal avgRating Hent) as H3.
    cbn [finalEntry month_count avgPrice avgRating fst snd summary
         acc_count priceSum priceN ratingSum ratingN] in H1, H2, H3.
    repeat split; assumption. }
  split; [exact Hsorted|].
  split.
  { intros r k E. unfold inMonth. now rewrite E. }
  split; [exact Ht|].
  split.
  { rewrite Hmiss. apply (fold_step_missing_launch_date rows initial). }
  split.
  { rewrite Hi.
    pose proof (fold_step_instock rows initial) as H.
    unfold instockTotal in H. rewrite H. reflexivity. }
  split.
  { remember (computeAnalytics [datedRow "2024-02-10"; datedRow "2024-01-05";
                                datedRow "2024-02-11"]) as o eqn:Eo.
    vm_compute in Eo. subst o.
    eexists. split; reflexivity. }
  exact isoMatch_month_key.
Qed.

End Monthly.

(** C5, where the code departs from the claim.  The normalizer writes the
    year of a date read by the host without padding, so the launch date
    ["14 March 987"], read as the 14th of March of the year 987, is cleaned
    to ["987-03-14"], and the aggregator files the row under the key
    ["987-03-"]: seven code units that are not a month [YYYY-MM]. *)
Theorem monthly_key_of_a_short_year_is_not_a_month :
  launch_date (cleanRow year987Host shortYearRecord)
  = Some (lit "987-03-14")
  /\ isoMatch (lit "987-03-14") = false
  /\ (exists a,
        computeAnalytics
          (rowFilter (map (cleanRow year987Host) [shortYearRecord]))
        = Done a
        /\ map (fun e => (month e, month_count e)) (monthly a)
           = [(lit "987-03-", 1)])
  /\ isMonthKey (lit "987-03-") = false.
Proof.
  split; [rewrite cleanRow_launch_date; vm_compute; reflexivity|].
  split; [reflexivity|].
  split; [|reflexivity].
  remember (computeAnalytics
              (rowFilter (map (cleanRow year987Host) [shortYearRecord])))
    as o eqn:Eo.
  vm_compute in Eo. subst o.
  eexists. split; reflexivity.
Qed.

(** The end-to-end example of the specification: the second record is
    dropped, the price loses its currency sign and comma, the rating is
    clamped from 6 to 5. *)
Example upload_end_to_end :
  upload isoOnlyHost
    [widgetRecord;
     [(lit "product", Null); (lit "price", Null); (lit "rating", Null);
      (lit "instock", Null); (lit "launch_date", Null)]]
  = Done (Success None
            {| totalRows := 1;
               missingCounts :=
                 {| missing_product := 0; missing_price := 0;
                    missing_rating := 0; missing_instock := 0;
                    missing_launch_date := 0 |};
               stats_price :=
                 {| count := 1; min := Some (Prim2SF 10000);
                    max := Some (Prim2SF 10000);
                    mean := Some (Prim2SF 10000) |};
               stats_rating :=
                 {| count := 1; min := Some (Prim2SF 5);
                    max := Some (Prim2SF 5); mean := Some (Prim2SF 5) |};
               topProducts :=
                 [{| top_product := lit "Widget"; top_count := 1 |}];
               instockCounts :=
                 {| count_true := 1; count_false := 0; count_null := 0 |};
               monthly :=
                 [{| month := lit "2024-01"; month_count := 1;
                     avgPrice := Some (Prim2SF 10000);
                     avgRating := Some (Prim2SF 5) |}] |}
            [{| product := Some (lit "Widget");
                price := Some (Prim2SF 10000);
                rating := Some (Prim2SF 5);
                instock := Some true;
                review := None;
                launch_date := Some (lit "2024-01-05") |}]).
Proof. vm_compute. reflexivity. Qed.

(* ================================================================== *)
(** * Further properties of [server.js] *)
(* ================================================================== *)

(** ** Trimming and lower-casing *)

Lemma trimStart_blank (ws s : jstring) :
  blank ws -> trimStart (ws ++ s) = trimStart s.
Proof.
  induction 1 as [|c ws Hc _ IH]; [reflexivity|].
  cbn [app trimStart]. now rewrite Hc.
Qed.

Lemma trimStart_split (s : jstring) :
  exists ws, blank ws /\ s = ws ++ trimStart s.
Proof.
  induction s as [|c s (ws & Hws & E)].
  - exists []. split; [constructor | reflexivity].
  - cbn [trimStart]. destruct (isWhiteSpace c) eqn:Hc.
    + exists (c :: ws). split; [now constructor|].
      cbn [app]. now rewrite <- E.
    + exists []. split; [constructor | reflexivity].
Qed.

Lemma trimStart_head (s : jstring) (c : code_unit) (t : jstring) :
  trimStart s = c :: t -> isWhiteSpace c = false.
Proof.
  induction s as [|d s IH]; cbn [trimStart]; [discriminate|].
  destruct (isWhiteSpace d) eqn:Hd; [exact IH|].
  intros H. injection H as <- _. exact Hd.
Qed.

Lemma trimStart_nil_blank (s : jstring) : trimStart s = [] -> blank s.
Proof.
  destruct (trimStart_split s) as (ws & Hws & E). intros H.
  rewrite H, app_nil_r in E. now subst.
Qed.

Lemma trimStart_app (s t : jstring) :
  trimStart s <> [] -> trimStart (s ++ t) = trimStart s ++ t.
Proof.
  induction s as [|c s IH]; cbn [trimStart app]; [congruence|].
  destruct (isWhiteSpace c); [exact IH | reflexivity].
Qed.

Lemma blank_app (a b : jstring) : blank a -> blank b -> blank (a ++ b).
Proof. intros. apply Forall_app. now split. Qed.

Lemma blank_rev (s : jstring) : blank s -> blank (rev s).
Proof. apply Forall_rev. Qed.

Lemma trimStart_of_blank (s : jstring) : blank s -> trimStart s = [].
Proof.
  intros H. rewrite <- (app_nil_r s). now rewrite trimStart_blank.
Qed.

Lemma trimEnd_blank (s ws : jstring) :
  blank ws -> trimEnd (s ++ ws) = trimEnd s.
Proof.
  intros H. unfold trimEnd. rewrite rev_app_distr.
  rewrite trimStart_blank; [reflexivity | now apply blank_rev].
Qed.

Lemma trimEnd_split (s : jstring) :
  exists ws, blank ws /\ s = trimEnd s ++ ws.
Proof.
  destruct (trimStart_split (rev s)) as (ws & Hws & E).
  exists (rev ws). split; [now apply blank_rev|].
  unfold trimEnd. rewrite <- rev_app_distr, <- E. now rewrite rev_involutive.
Qed.

(** Trimming removes the white space around a text and nothing else. *)
Lemma trim_surround (ws s ws' : jstring) :
  blank ws -> blank ws' -> trim (ws ++ s ++ ws') = trim s.
Proof.
  intros Hws Hws'. unfold trim. rewrite trimStart_blank by exact Hws.
  destruct (trimStart s) as [|c t] eqn:E.
  - rewrite trimStart_of_blank; [reflexivity|].
    apply blank_app; [now apply trimStart_nil_blank | exact Hws'].
  - rewrite trimStart_app by congruence. rewrite E.
    now apply trimEnd_blank.
Qed.

Lemma trim_split (s : jstring) :
  exists ws ws', blank ws /\ blank ws' /\ s = ws ++ trim s ++ ws'.
Proof.
  destruct (trimStart_split s) as (ws & Hws & E).
  destruct (trimEnd_split (trimStart s)) as (ws' & Hws' & E').
  exists ws, ws'. repeat split; try assumption.
  unfold trim. now rewrite <- E', <- E.
Qed.

Lemma trim_trimmed (s : jstring) : trimmed (trim s).
Proof.
  unfold trim.
  destruct (trimEnd (trimStart s)) as [|c0 tl] eqn:E; [now left|].
  right.
  destruct (trimEnd_split (trimStart s)) as (ws & _ & Es).
  assert (H0 : isWhiteSpace c0 = false).
  { rewrite E in Es. cbn [app] in Es. exact (trimStart_head _ Es). }
  unfold trimEnd in E.
  destruct (trimStart (rev (trimStart s))) as [|l r] eqn:Er;
    [discriminate|].
  exists c0, tl, (rev r), l. cbn [rev] in E.
  repeat split; try assumption; [now rewrite <- E|].
  exact (trimStart_head _ Er).
Qed.

Lemma trimmed_trim (s : jstring) : trimmed s -> trim s = s.
Proof.
  intros [->|(c0 & tl & init & l & E0 & El & H0 & Hl)]; [reflexivity|].
  exact (@trim_id _ _ _ _ _ E0 El H0 Hl).
Qed.

Lemma trim_idempotent (s : jstring) : trim (trim s) = trim s.
Proof. apply trimmed_trim, trim_trimmed. Qed.

Lemma lowerUnit_white (c : code_unit) :
  isWhiteSpace c = true -> lowerUnit c = [c].
Proof.
  intros H. unfold lowerUnit.
  destruct ((65 <=? c) && (c <=? 90))%N eqn:E1.
  { apply andb_true_iff in E1 as [L U]. apply N.leb_le in L, U.
    rewrite printable_not_white in H by lia. discriminate. }
  destruct (N.eqb_spec c 8490) as [->|_]; [discriminate|].
  destruct (N.eqb_spec c 304) as [->|_]; [discriminate|].
  reflexivity.
Qed.

Lemma lowerUnit_not_white (c : code_unit) :
  isWhiteSpace c = false ->
  exists d r d' r',
    lowerUnit c = d :: r /\ lowerUnit c = r' ++ [d']
    /\ isWhiteSpace d = false /\ isWhiteSpace d' = false.
Proof.
  intros H. unfold lowerUnit.
  destruct ((65 <=? c) && (c <=? 90))%N eqn:E1.
  { apply andb_true_iff in E1 as [L U]. apply N.leb_le in L, U.
    exists (c + 32)%N, [], (c + 32)%N, [].
    repeat split; apply printable_not_white; lia. }
  destruct (N.eqb_spec c 8490) as [->|_].
  { exists 107%N, [], 107%N, []. repeat split. }
  destruct (N.eqb_spec c 304) as [->|_].
  { exists 105%N, [775%N], 775%N, [105%N]. repeat split. }
  exists c, [], c, []. repeat split; assumption.
Qed.

Lemma toLowerCase_app (a b : jstring) :
  toLowerCase (a ++ b) = toLowerCase a ++ toLowerCase b.
Proof. apply flat_map_app. Qed.

Lemma toLowerCase_blank (ws : jstring) : blank ws -> toLowerCase ws = ws.
Proof.
  induction 1 as [|c ws Hc _ IH]; [reflexivity|].
  unfold toLowerCase in *. cbn [flat_map].
  now rewrite (lowerUnit_white _ Hc), IH.
Qed.

Lemma toLowerCase_trimmed (s : jstring) : trimmed s -> trimmed (toLowerCase s).
Proof.
  intros [->|(c0 & tl & init & l & E0 & El & H0 & Hl)]; [now left|].
  right.
  destruct (lowerUnit_not_white _ H0) as (d & r & _ & _ & Ed & _ & Hd & _).
  destruct (lowerUnit_not_white _ Hl) as (_ & _ & d' & r' & _ & Ed' & _ & Hd').
  exists d, (r ++ toLowerCase tl), (toLowerCase init ++ r'), d'.
  repeat split; try assumption.
  - rewrite E0. unfold toLowerCase. cbn [flat_map]. now rewrite Ed.
  - rewrite El, toLowerCase_app. unfold toLowerCase at 2.
    cbn [flat_map]. rewrite app_nil_r, Ed'. now rewrite app_assoc.
Qed.

(** Lower-casing and trimming commute. *)
Lemma trim_toLowerCase (s : jstring) :
  trim (toLowerCase s) = toLowerCase (trim s).
Proof.
  destruct (trim_split s) as (ws & ws' & Hws & Hws' & E).
  rewrite E at 1. rewrite !toLowerCase_app.
  rewrite (toLowerCase_blank Hws), (toLowerCase_blank Hws').
  rewrite trim_surround by assumption.
  apply trimmed_trim, toLowerCase_trimmed, trim_trimmed.
Qed.

Lemma lowerUnit_idempotent (c : code_unit) :
  toLowerCase (lowerUnit c) = lowerUnit c.
Proof.
  unfold toLowerCase, lowerUnit.
  destruct ((65 <=? c) && (c <=? 90))%N eqn:E1.
  { apply andb_true_iff in E1 as [L U]. apply N.leb_le in L, U.
    cbn [flat_map]. unfold lowerUnit.
    replace ((65 <=? c + 32) && (c + 32 <=? 90))%N with false
      by (symmetry; apply andb_false_iff; right; apply N.leb_gt; lia).
    units_differ (c + 32)%N. reflexivity. }
  destruct (N.eqb_spec c 8490) as [->|N1]; [reflexivity|].
  destruct (N.eqb_spec c 304) as [->|N2]; [reflexivity|].
  cbn [flat_map]. unfold lowerUnit. rewrite E1.
  units_differ c. reflexivity.
Qed.

Lemma toLowerCase_idempotent (s : jstring) :
  toLowerCase (toLowerCase s) = toLowerCase s.
Proof.
  induction s as [|c s IH]; [reflexivity|].
  change (toLowerCase (c :: s)) with (lowerUnit c ++ toLowerCase s).
  now rewrite toLowerCase_app, lowerUnit_idempotent, IH.
Qed.

(** ** Header normalization *)

Lemma asciiText_trim (s : jstring) : asciiText s -> asciiText (trim s).
Proof.
  intros H. destruct (trim_split s) as (ws & ws' & _ & _ & E).
  unfold asciiText in *. rewrite E, !Forall_app in H. tauto.
Qed.

Lemma asciiText_toLowerCase (s : jstring) :
  asciiText s -> asciiText (toLowerCase s).
Proof.
  unfold asciiText, toLowerCase.
  induction 1 as [|c s Hc _ IH]; [constructor|].
  cbn [flat_map]. apply Forall_app. split; [|exact IH].
  unfold lowerUnit.
  destruct ((65 <=? c) && (c <=? 90))%N eqn:E.
  - apply andb_true_iff in E as [_ U]. apply N.leb_le in U.
    repeat constructor. lia.
  - destruct (N.eqb_spec c 8490); [lia|].
    destruct (N.eqb_spec c 304); [lia|].
    repeat constructor. exact Hc.
Qed.

(** X1.  White space around a header never changes what [normalizeHeader]
    returns, whatever the engine's case mapping.  With an engine that
    lower-cases ASCII texts letter by letter, an ASCII header is mapped to
    a canonical form: its trimmed text with the letters A to Z in lower
    case, again ASCII and trimmed; normalizing the result again changes
    nothing, the case of the letters of the header does not matter, and a
    missing or empty header becomes the empty string. *)
Theorem normalizeHeader_canonical (lowerCase : jstring -> jstring) :
  (forall ws s ws',
     blank ws -> blank ws' ->
     normalizeHeader lowerCase (Str (ws ++ s ++ ws'))
     = normalizeHeader lowerCase (Str s))
  /\ (normalizeHeader lowerCase Undefined = lowerCase []
      /\ normalizeHeader lowerCase Null = lowerCase []
      /\ normalizeHeader lowerCase (Str []) = lowerCase [])
  /\ ((forall s, asciiText s -> lowerCase s = toLowerCase s) ->
      (forall s,
         asciiText s ->
         normalizeHeader lowerCase (Str s) = toLowerCase (trim s)
         /\ asciiText (normalizeHeader lowerCase (Str s))
         /\ trimmed (normalizeHeader lowerCase (Str s))
         /\ normalizeHeader lowerCase (Str (normalizeHeader lowerCase (Str s)))
            = normalizeHeader lowerCase (Str s)
         /\ normalizeHeader lowerCase (Str (toLowerCase s))
            = normalizeHeader lowerCase (Str s))
      /\ normalizeHeader lowerCase Undefined = []
      /\ normalizeHeader lowerCase (Str (lit "  Launch_Date "))
         = lit "launch_date").
Proof.
  unfold normalizeHeader. cbn [String_or_empty].
  split.
  { intros ws s ws' Hws Hws'. now rewrite trim_surround. }
  split; [repeat split|].
  intros Hascii.
  assert (Hn : forall s, asciiText s ->
                         lowerCase (trim s) = toLowerCase (trim s)).
  { intros s Hs. now apply Hascii, asciiText_trim. }
  split.
  { intros s Hs.
    assert (Hl : asciiText (toLowerCase s)) by now apply asciiText_toLowerCase.
    assert (Hlt : asciiText (toLowerCase (trim s)))
      by now apply asciiText_toLowerCase, asciiText_trim.
    rewrite (Hn s Hs), (Hn _ Hlt), (Hn _ Hl).
    split; [reflexivity|]. split; [exact Hlt|].
    split; [apply toLowerCase_trimmed, trim_trimmed|].
    split.
    - now rewrite trim_toLowerCase, trim_idempotent, toLowerCase_idempotent.
    - now rewrite trim_toLowerCase, toLowerCase_idempotent. }
  split.
  { apply (Hascii []). constructor. }
  rewrite Hascii; [reflexivity|].
  apply asciiText_trim. vm_compute. repeat constructor.
Qed.

Lemma normalizeHeader_canonical_witness :
  normalizeHeader toLowerCase (Str (lit " Price "))
  = toLowerCase (trim (lit " Price "))
  /\ normalizeHeader toLowerCase (Str (lit " Price ")) = lit "price".
Proof.
  destruct (normalizeHeader_canonical toLowerCase) as (_ & _ & H).
  destruct H as (H & _); [reflexivity|].
  destruct (H (lit " Price ")) as (E & _).
  - vm_compute. repeat constructor.
  - split; [exact E | reflexivity].
Defined.

(** ** White space and case in the normalizers *)

Section Surroundings.

Variable host : DateHost.

(** X2.  White space around a raw value changes the result of no
    normalizer, and the case of the letters does not change the result of
    the Boolean normalizer. *)
Theorem normalizers_ignore_surrounding_white_space (ws s ws' : jstring) :
  blank ws -> blank ws' ->
  parseNumber (Str (ws ++ s ++ ws')) = parseNumber (Str s)
  /\ parseBoolean (Str (ws ++ s ++ ws')) = parseBoolean (Str s)
  /\ parseDateISO host (Str (ws ++ s ++ ws')) = parseDateISO host (Str s)
  /\ parseBoolean (Str (toLowerCase (ws ++ s ++ ws'))) = parseBoolean (Str s).
Proof.
  intros Hws Hws'.
  unfold parseNumber, parseBoolean, parseDateISO.
  rewrite trim_toLowerCase, toLowerCase_idempotent.
  rewrite !trim_surround by assumption.
  repeat split; reflexivity.
Qed.

End Surroundings.

Lemma normalizers_ignore_surrounding_white_space_witness :
  parseNumber (Str ([32; 9]%N ++ lit "$5" ++ [10; 160]%N))
  = parseNumber (Str (lit "$5"))
  /\ parseBoolean (Str ([32; 9]%N ++ lit "Yes" ++ [10; 160]%N))
     = parseBoolean (Str (lit "Yes")).
Proof.
  destruct (@normalizers_ignore_surrounding_white_space isoOnlyHost
              [32; 9]%N (lit "$5") [10; 160]%N) as (Hn & _);
    [repeat constructor | repeat constructor |].
  destruct (@normalizers_ignore_surrounding_white_space isoOnlyHost
              [32; 9]%N (lit "Yes") [10; 160]%N) as (_ & Hb & _);
    [repeat constructor | repeat constructor |].
  split; [exact Hn | exact Hb].
Defined.

(** ** Recognized Boolean tokens *)

Lemma tokens_disjoint (t : jstring) :
  In t TRUE_TOKENS -> In t FALSE_TOKENS -> False.
Proof.
  unfold TRUE_TOKENS, FALSE_TOKENS. cbn [In].
  intros Ht Hf.
  repeat (destruct Ht as [<-|Ht]; [intuition discriminate|]).
  exact Ht.
Qed.

Lemma tokens_not_empty : ~ In [] TRUE_TOKENS /\ ~ In [] FALSE_TOKENS.
Proof. split; cbn [TRUE_TOKENS FALSE_TOKENS In]; intuition discriminate. Qed.

(** X3.  The Boolean normalizer returns [true] exactly for the values whose
    trimmed, lower-cased text is one of the seven true tokens and [false]
    exactly for those whose text is one of the seven false tokens; no text
    is both. *)
Theorem parseBoolean_recognized (v : value) :
  (parseBoolean v = Some true <->
   exists raw, v = Str raw /\ In (toLowerCase (trim raw)) TRUE_TOKENS)
  /\ (parseBoolean v = Some false <->
      exists raw, v = Str raw /\ In (toLowerCase (trim raw)) FALSE_TOKENS)
  /\ (forall t, In t TRUE_TOKENS -> In t FALSE_TOKENS -> False).
Proof.
  destruct tokens_not_empty as [Hte Hfe].
  split; [|split; [|exact tokens_disjoint]].
  - split.
    + destruct v as [| |raw]; try discriminate. unfold parseBoolean.
      intros H. exists raw. split; [reflexivity|].
      destruct (is_empty _); [discriminate|].
      destruct (includes TRUE_TOKENS _) eqn:E; [now apply includes_In|].
      destruct (includes FALSE_TOKENS _); discriminate.
    + intros (raw & -> & Hin). unfold parseBoolean.
      destruct (toLowerCase (trim raw)) as [|c t] eqn:E; [contradiction|].
      cbn [is_empty]. apply includes_In in Hin. now rewrite Hin.
  - split.
    + destruct v as [| |raw]; try discriminate. unfold parseBoolean.
      intros H. exists raw. split; [reflexivity|].
      destruct (is_empty _); [discriminate|].
      destruct (includes TRUE_TOKENS _); [discriminate|].
      destruct (includes FALSE_TOKENS _) eqn:E; [now apply includes_In|].
      discriminate.
    + intros (raw & -> & Hin). unfold parseBoolean.
      destruct (toLowerCase (trim raw)) as [|c t] eqn:E; [contradiction|].
      cbn [is_empty].
      destruct (includes TRUE_TOKENS (c :: t)) eqn:Et.
      * apply includes_In in Et. destruct (tokens_disjoint Et Hin).
      * apply includes_In in Hin. now rewrite Hin.
Qed.

(** ** Texts without digits *)

Lemma trim_of_blank (s : jstring) : blank s -> trim s = [].
Proof.
  intros H. unfold trim. now rewrite (trimStart_of_blank H).
Qed.

(** X4.  A text that is not blank and holds nothing but currency signs,
    commas and white space is normalized to the Number 0, not to [null]:
    what is left after the signs are removed is empty, and [Number] of an
    empty text is 0. *)
Theorem parseNumber_of_currency_signs_is_zero (raw : jstring) :
  trim raw <> [] ->
  (forall c, In c (trim raw) ->
             In c CURRENCY_OR_COMMA \/ isWhiteSpace c = true) ->
  parseNumber (Str raw) = Some (nat_number 0).
Proof.
  intros Hne Hall. rewrite parseNumber_Str.
  destruct (trim raw) as [|c0 t] eqn:E; [congruence|]. cbn [is_empty].
  assert (Hb : blank (stripCurrency (c0 :: t))).
  { apply Forall_forall. intros c Hc. apply stripCurrency_In in Hc as [Hin Hn].
    destruct (Hall c Hin); [contradiction | assumption]. }
  unfold Number. rewrite (trim_of_blank Hb). reflexivity.
Qed.

Lemma parseNumber_of_currency_signs_is_zero_witness :
  parseNumber (Str (lit " $ ,")) = Some (nat_number 0).
Proof.
  apply parseNumber_of_currency_signs_is_zero.
  - vm_compute. discriminate.
  - vm_compute. intros c [<-|[<-|[<-|[]]]]; vm_compute; auto 10.
Defined.

(** ** Header validation *)

Lemma includes_ext (l l' : list jstring) (s : jstring) :
  (forall h, In h l <-> In h l') -> includes l s = includes l' s.
Proof.
  intros H. destruct (includes l' s) eqn:E.
  - apply includes_In. apply H. now apply includes_In.
  - apply includes_not_In. intros Hin. apply H in Hin.
    apply includes_In in Hin. congruence.
Qed.

Lemma validateColumns_complete (headers : list jstring) :
  missing (validateColumns headers) = [] <-> incl REQUIRED_COLUMNS headers.
Proof.
  split.
  - intros E c Hc.
    destruct (includes headers c) eqn:Ei; [now apply includes_In|].
    assert (Hin : In c (missing (validateColumns headers))).
    { apply validateColumns_missing. split; [exact Hc|].
      now apply includes_not_In. }
    rewrite E in Hin. destruct Hin.
  - intros Hincl.
    destruct (missing (validateColumns headers)) as [|c m] eqn:E;
      [reflexivity|].
    assert (Hin : In c (missing (validateColumns headers)))
      by (rewrite E; now left).
    apply validateColumns_missing in Hin as [Hr Hn].
    destruct (Hn (Hincl c Hr)).
Qed.

Lemma validateColumns_unexpected (headers : list jstring) (h : jstring) :
  In h (unexpected (validateColumns headers))
  <-> In h headers /\ ~ In h REQUIRED_COLUMNS /\ ~ In h OPTIONAL_COLUMNS.
Proof.
  unfold validateColumns. cbn [unexpected].
  rewrite filter_In, andb_true_iff, !negb_true_iff, !includes_not_In.
  tauto.
Qed.

(** X5.  The header validator looks at the set of headers only: headers
    with the same members, in any order and with any repetition, have the
    same missing columns, and none is missing exactly when every required
    column is among them.  The unexpected columns are the headers that are
    neither required nor optional, in the order of the headers; no
    required or optional column is ever reported as unexpected. *)
Theorem validateColumns_reads_the_header_set (headers : list jstring) :
  (forall headers',
     (forall h, In h headers <-> In h headers') ->
     missing (validateColumns headers') = missing (validateColumns headers))
  /\ (missing (validateColumns headers) = [] <->
      incl REQUIRED_COLUMNS headers)
  /\ (forall h, In h (unexpected (validateColumns headers)) <->
                In h headers /\ ~ In h REQUIRED_COLUMNS
                /\ ~ In h OPTIONAL_COLUMNS)
  /\ (forall before after,
        unexpected (validateColumns (before ++ after))
        = unexpected (validateColumns before)
          ++ unexpected (validateColumns after))
  /\ unexpected (validateColumns (REQUIRED_COLUMNS ++ OPTIONAL_COLUMNS)) = []
  /\ missing (validateColumns (rev (REQUIRED_COLUMNS ++ OPTIONAL_COLUMNS)))
     = [].
Proof.
  split.
  { intros headers' H. unfold validateColumns. cbn [missing].
    apply filter_ext. intros c. f_equal. symmetry. now apply includes_ext. }
  split; [apply validateColumns_complete|].
  split; [apply validateColumns_unexpected|].
  split.
  { intros before after. unfold validateColumns. cbn [unexpected].
    apply filter_app. }
  split; reflexivity.
Qed.

(** ** The answers of the upload handler *)

Section Answers.

Variable host : DateHost.

(** X6.  The upload handler answers with success exactly when every
    required column is among the headers of the first record, and with the
    schema error otherwise.  On success the warnings are [null] exactly
    when no header is unexpected, and else list the unexpected headers.
    An input without records has no headers, so it is answered with the
    schema error that reports every required column missing. *)
Theorem upload_succeeds_iff_required_columns_present
        (records : list RawRecord) :
  ((exists w a sample, upload host records = Done (Success w a sample))
   <-> incl REQUIRED_COLUMNS (headersOf records))
  /\ ((exists e m r f, upload host records = Done (SchemaError e m r f))
      <-> ~ incl REQUIRED_COLUMNS (headersOf records))
  /\ (forall w a sample,
        upload host records = Done (Success w a sample) ->
        (w = None <->
         forall h, In h (headersOf records) ->
                   In h REQUIRED_COLUMNS \/ In h OPTIONAL_COLUMNS)
        /\ (forall u, w = Some u ->
              u <> []
              /\ u = unexpected (validateColumns (headersOf records))))
  /\ upload host []
     = Done (SchemaError
               (lit "CSV structure invalid: missing required columns.")
               REQUIRED_COLUMNS REQUIRED_COLUMNS []).
Proof.
  pose proof (validateColumns_complete (headersOf records)) as Hc.
  assert (Hcase :
            (missing (validateColumns (headersOf records)) = []
             /\ exists a,
                 upload host records =
                 Done (Success
                         (if negb (Nat.eqb
                                     (length (unexpected
                                                (validateColumns
                                                   (headersOf records)))) 0)
                          then Some (unexpected
                                       (validateColumns (headersOf records)))
                          else None)
                         a
                         (firstn 8 (rowFilter (map (cleanRow host) records)))))
            \/ (missing (validateColumns (headersOf records)) <> []
                /\ exists e m r f,
                    upload host records = Done (SchemaError e m r f))).
  { destruct (missing (validateColumns (headersOf records))) as [|c m] eqn:E.
    - left. split; [reflexivity|].
      destruct (upload_valid host records E) as (a & _ & Hup). now exists a.
    - right. split; [discriminate|].
      unfold upload. cbv zeta. rewrite E. cbn [length Nat.eqb negb].
      do 4 eexists. reflexivity. }
  split; [|split; [|split; [|reflexivity]]].
  - split.
    + intros (w & a & s & Hup).
      destruct Hcase as [[E _]|[_ (e & m & r & f & Hse)]];
        [now apply Hc | congruence].
    + intros Hincl. apply Hc in Hincl.
      destruct Hcase as [[_ (a & Hup)]|[Hne _]]; [|contradiction].
      do 3 eexists. exact Hup.
  - split.
    + intros (e & m & r & f & Hse) Hincl. apply Hc in Hincl.
      destruct Hcase as [[_ (a & Hup)]|[Hne _]]; [congruence | contradiction].
    + intros Hn.
      destruct Hcase as [[E _]|[_ H]]; [|exact H].
      apply Hc in E. contradiction.
  - intros w a sample Hup.
    destruct Hcase as [[_ (a' & Hup')]|[_ (e & m & r & f & Hse)]];
      [|congruence].
    rewrite Hup in Hup'.
    assert (Hw := f_equal (fun r : outcome Response =>
                             match r with
                             | Done (Success w' _ _) => w'
                             | _ => None
                             end) Hup').
    cbv beta iota in Hw. clear Hup'.
    pose proof (validateColumns_unexpected (headersOf records)) as Hun.
    destruct (unexpected (validateColumns (headersOf records)))
      as [|u0 us] eqn:Eu; cbn [length Nat.eqb negb] in Hw; subst w.
    + split; [|intros u Hu; discriminate Hu]. split; [|reflexivity].
      intros _ h Hh.
      destruct (in_dec (list_eq_dec N.eq_dec) h REQUIRED_COLUMNS) as [|Hr];
        [now left|].
      destruct (in_dec (list_eq_dec N.eq_dec) h OPTIONAL_COLUMNS) as [|Ho];
        [now right|].
      destruct (proj2 (Hun h) (conj Hh (conj Hr Ho))).
    + split.
      * split; [discriminate|]. intros Hall. exfalso.
        destruct (proj1 (Hun u0) (or_introl eq_refl)) as (Hh & Hr & Ho).
        destruct (Hall u0 Hh); contradiction.
      * intros u Hu. injection Hu as <-. split; [discriminate | reflexivity].
Qed.

End Answers.

(** ** Dates *)

Lemma In_Z_range (lo z : Z) (n : nat) :
  (lo <= z < lo + Z.of_nat n)%Z -> In z (Z_range lo n).
Proof.
  intros H. unfold Z_range. apply in_map_iff.
  exists (Z.to_nat (z - lo)). split; [lia|].
  apply in_seq. lia.
Qed.

Lemma year_has_4_digits (y : Z) :
  (1000 <= y <= 9999)%Z -> digitsOnly 4 (String_of_Z y) = true.
Proof.
  intros H.
  assert (Hall : forallb (fun z => digitsOnly 4 (String_of_Z z))
                         (Z_range 1000 (Z.to_nat 9000)) = true)
    by (vm_compute; reflexivity).
  rewrite forallb_forall in Hall. apply Hall, In_Z_range.
  rewrite Z2Nat.id; lia.
Qed.

Lemma day_or_month_has_2_digits (z : Z) :
  (1 <= z <= 31)%Z -> digitsOnly 2 (padStart2 (String_of_Z z)) = true.
Proof.
  intros H.
  assert (Hall : forallb (fun z => digitsOnly 2 (padStart2 (String_of_Z z)))
                         (Z_range 1 31) = true)
    by (vm_compute; reflexivity).
  rewrite forallb_forall in Hall. apply Hall, In_Z_range. lia.
Qed.

Lemma isoMatch_assemble (y m d : jstring) :
  digitsOnly 4 y = true -> digitsOnly 2 m = true -> digitsOnly 2 d = true ->
  isoMatch (y ++ lit "-" ++ m ++ lit "-" ++ d) = true.
Proof.
  unfold digitsOnly. rewrite !andb_true_iff, !Nat.eqb_eq.
  intros [Ly Hy] [Lm Hm] [Ld Hd].
  do 5 (destruct y as [|? y]; try discriminate).
  do 3 (destruct m as [|? m]; try discriminate).
  do 3 (destruct d as [|? d]; try discriminate).
  cbn [forallb] in Hy, Hm, Hd.
  repeat match goal with
         | H : _ && _ = true |- _ => apply andb_true_iff in H as [? H]
         end.
  change (lit "-") with [45%N]. cbn [app isoMatch].
  repeat match goal with H : isDigit _ = true |- _ => rewrite H; clear H end.
  reflexivity.
Qed.

Lemma isoMatch_trimmed (d : jstring) : isoMatch d = true -> trim d = d.
Proof.
  intros H.
  assert (Hw : forall c, isDigit c = true -> isWhiteSpace c = false).
  { intros c Hc. apply isDigit_range in Hc. apply printable_not_white. lia. }
  do 11 (destruct d as [|? d]; try discriminate).
  cbn [isoMatch] in H.
  repeat match goal with
         | H : _ && _ = true |- _ => apply andb_true_iff in H as [H ?]
         end.
  eapply (@trim_id _ [_; _; _; _; _; _; _; _; _]); try reflexivity; auto.
Qed.

Section Dates.

Variable host : DateHost.

(** X7.  A text in the shape of four digits, two digits and two digits
    between hyphens is returned as it is after trimming, whatever the
    host and whatever the digits: ["2024-13-45"] is accepted; and a date
    of that shape is returned unchanged when it is normalized again.
    When the host reads a text of another shape as a time value whose
    local year has four digits, whose month is from 0 to 11 and whose day
    from 1 to 31, the normalizer returns a date of that shape. *)
Theorem parseDateISO_returns_canonical_dates :
  (forall raw, isoMatch (trim raw) = true ->
               parseDateISO host (Str raw) = Some (trim raw))
  /\ (forall d, isoMatch d = true -> parseDateISO host (Str d) = Some d)
  /\ parseDateISO host (Str (lit " 2024-13-45 ")) = Some (lit "2024-13-45")
  /\ (forall raw t,
        trim raw <> [] ->
        isoMatch (trim raw) = false ->
        Date_parse host (trim raw) = Some t ->
        (1000 <= getFullYear host t <= 9999)%Z ->
        (0 <= getMonth host t <= 11)%Z ->
        (1 <= getDate host t <= 31)%Z ->
        exists d,
          parseDateISO host (Str raw) = Some d
          /\ isoMatch d = true
          /\ length d = 10
          /\ parseDateISO host (Str d) = Some d).
Proof.
  assert (Hiso : forall raw, isoMatch (trim raw) = true ->
                             parseDateISO host (Str raw) = Some (trim raw)).
  { intros raw H. unfold parseDateISO. rewrite H.
    destruct (trim raw); [discriminate | reflexivity]. }
  assert (Hfix : forall d, isoMatch d = true ->
                           parseDateISO host (Str d) = Some d).
  { intros d Hm. rewrite <- (@isoMatch_trimmed d Hm) at 2. apply Hiso.
    now rewrite (@isoMatch_trimmed d Hm). }
  split; [exact Hiso|]. split; [exact Hfix|]. split; [reflexivity|].
  intros raw t Hne Hn Hp Hy Hmo Hda.
  unfold parseDateISO at 1. rewrite Hn, Hp.
  destruct (trim raw); [congruence|]. cbn [is_empty].
  eexists. split; [reflexivity|].
  assert (Hm : isoMatch
                 (String_of_Z (getFullYear host t) ++ lit "-"
                  ++ padStart2 (String_of_Z (getMonth host t + 1)) ++ lit "-"
                  ++ padStart2 (String_of_Z (getDate host t))) = true).
  { apply isoMatch_assemble.
    - now apply year_has_4_digits.
    - apply day_or_month_has_2_digits. lia.
    - apply day_or_month_has_2_digits. lia. }
  split; [exact Hm|]. split; [now apply isoMatch_length | now apply Hfix].
Qed.

End Dates.

Lemma parseDateISO_returns_canonical_dates_witness :
  exists d,
    parseDateISO epochHost (Str (lit "1 Jan 1970")) = Some d
    /\ isoMatch d = true
    /\ length d = 10
    /\ parseDateISO epochHost (Str d) = Some d.
Proof.
  destruct (parseDateISO_returns_canonical_dates epochHost) as (_ & _ & _ & H).
  apply (H (lit "1 Jan 1970") 0%Z).
  - vm_compute. discriminate.
  - vm_compute. reflexivity.
  - reflexivity.
  - cbn. lia.
  - cbn. lia.
  - cbn. lia.
Defined.

(** ** Cleaned rows *)

Section CleanedRows.

Variable host : DateHost.

Lemma cleanRow_product (row : RawRecord) :
  product (cleanRow host row)
  = or_null (trim (String_or_empty (prop row (lit "product")))).
Proof. through_clamp. Qed.

Lemma cleanRow_price (row : RawRecord) :
  price (cleanRow host row) = parseNumber (prop row (lit "price")).
Proof. through_clamp. Qed.

Lemma cleanRow_instock (row : RawRecord) :
  instock (cleanRow host row) = parseBoolean (prop row (lit "instock")).
Proof. through_clamp. Qed.

Lemma cleanRow_eq (c c' : CleanedRow) :
  product c = product c' -> price c = price c' -> rating c = rating c' ->
  instock c = instock c' -> review c = review c' ->
  launch_date c = launch_date c' -> c = c'.
Proof.
  destruct c, c'. cbn. intros. subst. reflexivity.
Qed.

(** X8.  Every cleaned row is well formed: a product that is not [null]
    is a non-empty trimmed text, a price that is not [null] is a finite
    Number, a launch date that is not [null] has at least 7 code units,
    a review that is not [null] is trimmed, and the review is [null]
    exactly when the record has no review column.  The cleaned row depends
    on the six known columns of the record only. *)
Theorem cleanRow_is_well_formed (row : RawRecord) :
  (forall p, product (cleanRow host row) = Some p -> p <> [] /\ trimmed p)
  /\ (product (cleanRow host row) = None <->
      blank (String_or_empty (prop row (lit "product"))))
  /\ (forall x, price (cleanRow host row) = Some x -> isFinite x = true)
  /\ (forall d, launch_date (cleanRow host row) = Some d -> 7 <= length d)
  /\ (forall r, review (cleanRow host row) = Some r -> trimmed r)
  /\ (review (cleanRow host row) = None <->
      prop row (lit "review") = Undefined)
  /\ (forall row', sameColumns row row' ->
                   cleanRow host row' = cleanRow host row).
Proof.
  rewrite cleanRow_product, cleanRow_price, cleanRow_launch_date,
    cleanRow_review.
  split.
  { intros p. unfold or_null.
    destruct (trim _) as [|c t] eqn:E; cbn [is_empty]; [discriminate|].
    intros H. injection H as <-. split; [discriminate|].
    rewrite <- E. apply trim_trimmed. }
  split.
  { unfold or_null. split.
    - destruct (trim _) as [|c t] eqn:E; cbn [is_empty]; [|discriminate].
      intros _.
      destruct (trim_split (String_or_empty (prop row (lit "product"))))
        as (ws & ws' & Hws & Hws' & Es).
      rewrite E in Es. rewrite Es. now apply blank_app.
    - intros H. now rewrite (trim_of_blank H). }
  split; [intros x; apply parseNumber_finite|].
  split; [intros d; apply parseDateISO_length|].
  split.
  { intros r. destruct (prop row (lit "review")); [discriminate| |];
      intros H; injection H as <-; apply trim_trimmed. }
  split.
  { destruct (prop row (lit "review")); split; congruence. }
  intros row' Hsame.
  assert (Hk : forall k, In k (REQUIRED_COLUMNS ++ OPTIONAL_COLUMNS) ->
                         prop row' k = prop row k) by exact Hsame.
  apply cleanRow_eq;
    rewrite ?cleanRow_product, ?cleanRow_price, ?cleanRow_rating,
      ?cleanRow_instock, ?cleanRow_review, ?cleanRow_launch_date;
    rewrite Hk; try reflexivity; cbn; auto 10.
Qed.

End CleanedRows.

(** ** Counters *)

Lemma fold_step_missing (rows : list CleanedRow) (a : Accumulators) :
  acc_missing (fold_left step rows a)
  = fold_left countMissing rows (acc_missing a).
Proof.
  revert a. induction rows as [|r rows IH]; intros a; [reflexivity|].
  cbn [fold_left]. now rewrite IH.
Qed.

Lemma bump_isNull (A : Type) (o : option A) (n : nat) :
  bump o n = n + (if isNull o then 1 else 0).
Proof. destruct o; cbn; lia. Qed.

Lemma fold_countMissing (rows : list CleanedRow) (m : MissingCounts) :
  let m' := fold_left countMissing rows m in
  missing_product m' = missing_product m + nullCount product rows
  /\ missing_price m' = missing_price m + nullCount price rows
  /\ missing_rating m' = missing_rating m + nullCount rating rows
  /\ missing_instock m' = missing_instock m + nullCount instock rows
  /\ missing_launch_date m'
     = missing_launch_date m + nullCount launch_date rows.
Proof.
  revert m. induction rows as [|r rows IH]; intros m.
  - cbn. repeat split; lia.
  - cbn [fold_left]. cbv zeta.
    destruct (IH (countMissing m r)) as (H1 & H2 & H3 & H4 & H5).
    rewrite H1, H2, H3, H4, H5.
    unfold nullCount. cbn [filter countMissing missing_product missing_price
      missing_rating missing_instock missing_launch_date].
    rewrite !bump_isNull.
    destruct (isNull (product r)), (isNull (price r)), (isNull (rating r)),
      (isNull (instock r)), (isNull (launch_date r)); cbn [length];
      repeat split; lia.
Qed.

Lemma filter_length_le (A : Type) (f : A -> bool) (l : list A) :
  length (filter f l) <= length l.
Proof.
  induction l as [|x l IH]; [constructor|].
  cbn [filter]. destruct (f x); cbn [length]; lia.
Qed.

Lemma computeAnalytics_missing (rows : list CleanedRow) (a : Analytics) :
  computeAnalytics rows = Done a ->
  missing_product (missingCounts a) = nullCount product rows
  /\ missing_price (missingCounts a) = nullCount price rows
  /\ missing_rating (missingCounts a) = nullCount rating rows
  /\ missing_instock (missingCounts a) = nullCount instock rows
  /\ missing_launch_date (missingCounts a) = nullCount launch_date rows.
Proof.
  intros Ha.
  destruct (computeAnalytics_done rows) as (a' & Ha' & _ & Hm & _).
  rewrite Ha in Ha'. injection Ha' as <-.
  rewrite Hm, fold_step_missing.
  apply (fold_countMissing rows (acc_missing initial)).
Qed.

(** X9.  For every row set the aggregator returns, and each of its five
    missing counters is the number of rows whose field is [null], each of
    its three instock counters is the number of rows in that state, and
    none exceeds [totalRows]; the missing count of [instock] and the
    [null] instock counter are the same number. *)
Theorem counters_count_rows (rows : list CleanedRow) :
  exists a,
    computeAnalytics rows = Done a
    /\ missing_product (missingCounts a) = nullCount product rows
    /\ missing_price (missingCounts a) = nullCount price rows
    /\ missing_rating (missingCounts a) = nullCount rating rows
    /\ missing_instock (missingCounts a) = nullCount instock rows
    /\ missing_launch_date (missingCounts a) = nullCount launch_date rows
    /\ count_true (instockCounts a)
       = length (filter (instockIs (Some true)) rows)
    /\ count_false (instockCounts a)
       = length (filter (instockIs (Some false)) rows)
    /\ count_null (instockCounts a) = length (filter (instockIs None) rows)
    /\ count_null (instockCounts a) = missing_instock (missingCounts a)
    /\ (forall f : CleanedRow -> option number,
          nullCount f rows <= totalRows a)
    /\ (forall b, length (filter (instockIs b) rows) <= totalRows a).
Proof.
  destruct (computeAnalytics_done rows)
    as (a & Ha & Ht & _ & _ & _ & Hi & _).
  exists a. split; [exact Ha|].
  destruct (computeAnalytics_missing rows Ha) as (H1 & H2 & H3 & H4 & H5).
  destruct (fold_countInstock rows initial) as (I1 & I2 & I3).
  cbv zeta in *. rewrite H1, H2, H3, H4, H5, Hi, I1, I2, I3, Ht.
  cbn [initial acc_instock count_true count_false count_null Nat.add].
  repeat split; try reflexivity.
  - unfold nullCount. f_equal. apply filter_ext. intros r.
    unfold instockIs. destruct (instock r) as [[|]|]; reflexivity.
  - intros f. apply filter_length_le.
  - intros b. apply filter_length_le.
Qed.


Section Totals.

Variable host : DateHost.


End Totals.

(** ** The order of Numbers *)

Ltac pos_compare :=
  repeat match goal with
         | |- context [Pos.compare_cont Eq ?a ?b] =>
             change (Pos.compare_cont Eq a b) with (Pos.compare a b)
         | H : context [Pos.compare_cont Eq ?a ?b] |- _ =>
             change (Pos.compare_cont Eq a b) with (Pos.compare a b) in H
         end.

Lemma SFltb_irrefl (x : number) : SFltb x x = false.
Proof.
  unfold SFltb. destruct x as [s|s| |s m e]; cbn [SFcompare];
    try destruct s; try reflexivity;
    rewrite Z.compare_refl; pos_compare; rewrite Pos.compare_refl;
    reflexivity.
Qed.

Lemma SFltb_trans (x y z : number) :
  SFltb x y = true -> SFltb y z = true -> SFltb x z = true.
Proof.
  unfold SFltb.
  destruct x as [sx|sx| |sx mx ex], y as [sy|sy| |sy my ey],
           z as [sz|sz| |sz mz ez];
    cbn [SFcompare]; try (intros; discriminate);
    repeat match goal with s : bool |- _ => destruct s end;
    try (intros; discriminate); try (intros; reflexivity);
    pos_compare;
    destruct (Z.compare_spec ex ey), (Z.compare_spec ey ez),
             (Z.compare_spec ex ez);
    try lia; try (intros; discriminate); try (intros; reflexivity);
    destruct (Pos.compare_spec mx my), (Pos.compare_spec my mz),
             (Pos.compare_spec mx mz);
    cbn [CompOpp]; try lia;
    try (intros; discriminate); try (intros; reflexivity).
Qed.

Lemma SFcompare_antisym (x y : number) :
  SFcompare y x = option_map CompOpp (SFcompare x y).
Proof.
  destruct x as [sx|sx| |sx mx ex], y as [sy|sy| |sy my ey];
    cbn [SFcompare option_map];
    repeat match goal with s : bool |- _ => destruct s end;
    try reflexivity;
    rewrite (Z.compare_antisym ex ey);
    destruct (Z.compare ex ey); cbn [CompOpp]; try reflexivity;
    pose proof (Pos.compare_cont_antisym mx my Eq) as Hp;
    cbn [CompOpp] in Hp; rewrite <- Hp;
    destruct (Pos.compare_cont Eq mx my); reflexivity.
Qed.

Lemma SFltb_false_leb (x y : number) :
  isFinite x = true -> isFinite y = true ->
  SFltb x y = false -> SFleb y x = true.
Proof.
  intros Hx Hy. unfold SFltb, SFleb. rewrite (SFcompare_antisym x y).
  destruct x as [sx|sx| |sx mx ex]; try discriminate;
    destruct y as [sy|sy| |sy my ey]; try discriminate;
    cbn [SFcompare option_map];
    repeat match goal with s : bool |- _ => destruct s end;
    try (intros; reflexivity); try (intros; discriminate);
    destruct (Z.compare ex ey); cbn [CompOpp];
    try (intros; reflexivity); try (intros; discriminate);
    destruct (Pos.compare_cont Eq mx my); cbn [CompOpp];
    try (intros; reflexivity); try (intros; discriminate).
Qed.

(** ** Minimum and maximum *)

Lemma stats_loop_components (arr : list number) (mn mx sum : number) :
  fold_left
    (fun '(mn, mx, sum) x =>
       (if lt x mn then x else mn, if gt x mx then x else mx, add sum x))
    arr (mn, mx, sum)
  = (fold_left minStep arr mn, fold_left maxStep arr mx,
     fold_left add arr sum).
Proof.
  revert mn mx sum. induction arr as [|x arr IH]; intros; [reflexivity|].
  cbn [fold_left]. apply IH.
Qed.

Lemma fold_minStep (arr : list number) (mn0 : number) :
  In (fold_left minStep arr mn0) (mn0 :: arr)
  /\ (forall y, SFltb y mn0 = false ->
                SFltb y (fold_left minStep arr mn0) = false)
  /\ (forall x, In x arr -> SFltb x (fold_left minStep arr mn0) = false).
Proof.
  revert mn0. induction arr as [|x arr IH]; intros mn0; cbn [fold_left].
  - split; [now left|]. split; [auto | intros x []].
  - destruct (IH (minStep mn0 x)) as (Hin & Hlow & Hall).
    assert (Hstep : forall y, SFltb y mn0 = false ->
                              SFltb y (minStep mn0 x) = false).
    { intros y Hy. unfold minStep, lt.
      destruct (SFltb x mn0) eqn:E; [|exact Hy].
      destruct (SFltb y x) eqn:E'; [|reflexivity].
      rewrite (SFltb_trans _ _ _ E' E) in Hy. discriminate. }
    split.
    { destruct Hin as [Hin|Hin]; [|now right; right].
      rewrite <- Hin. unfold minStep. destruct (lt x mn0); cbn; auto. }
    split; [intros y Hy; now apply Hlow, Hstep|].
    intros y [<-|Hy]; [|now apply Hall].
    apply Hlow. unfold minStep, lt.
    destruct (SFltb x mn0) eqn:E; [apply SFltb_irrefl | exact E].
Qed.

Lemma fold_maxStep (arr : list number) (mx0 : number) :
  In (fold_left maxStep arr mx0) (mx0 :: arr)
  /\ (forall y, SFltb mx0 y = false ->
                SFltb (fold_left maxStep arr mx0) y = false)
  /\ (forall x, In x arr -> SFltb (fold_left maxStep arr mx0) x = false).
Proof.
  revert mx0. induction arr as [|x arr IH]; intros mx0; cbn [fold_left].
  - split; [now left|]. split; [auto | intros x []].
  - destruct (IH (maxStep mx0 x)) as (Hin & Hup & Hall).
    assert (Hstep : forall y, SFltb mx0 y = false ->
                              SFltb (maxStep mx0 x) y = false).
    { intros y Hy. unfold maxStep, gt.
      destruct (SFltb mx0 x) eqn:E; [|exact Hy].
      destruct (SFltb x y) eqn:E'; [|reflexivity].
      rewrite (SFltb_trans _ _ _ E E') in Hy. discriminate. }
    split.
    { destruct Hin as [Hin|Hin]; [|now right; right].
      rewrite <- Hin. unfold maxStep. destruct (gt x mx0); cbn; auto. }
    split; [intros y Hy; now apply Hup, Hstep|].
    intros y [<-|Hy]; [|now apply Hall].
    apply Hup. unfold maxStep, gt.
    destruct (SFltb mx0 x) eqn:E; [apply SFltb_irrefl | exact E].
Qed.

Lemma stats_nonempty (arr : list number) :
  arr <> [] ->
  exists mn mx,
    stats arr
    = Done {| count := length arr; min := Some mn; max := Some mx;
              mean := Some (SFdiv prec emax (total arr)
                                  (nat_number (length arr))) |}
    /\ In mn arr /\ In mx arr
    /\ (forall x, In x arr -> lt x mn = false /\ gt x mx = false).
Proof.
  destruct arr as [|a0 arr]; [congruence|]. intros _.
  unfold stats. rewrite stats_loop_components.
  destruct (fold_minStep (a0 :: arr) a0) as (Hmin & _ & Hlow).
  destruct (fold_maxStep (a0 :: arr) a0) as (Hmax & _ & Hup).
  do 2 eexists. split; [reflexivity|].
  split; [destruct Hmin as [<-|H]; [now left | exact H]|].
  split; [destruct Hmax as [<-|H]; [now left | exact H]|].
  intros x Hx. split; [now apply Hlow | now apply Hup].
Qed.

(** X11.  The statistics of a non-empty array: the count is its length,
    the mean is its sum from the left divided by the length, the minimum
    and the maximum are elements of the array, no element is less than
    the minimum or greater than the maximum, and when the elements are
    finite the minimum is at most, and the maximum at least, every
    element. *)
Theorem stats_min_max_bound_the_array (arr : list number) :
  arr <> [] ->
  exists mn mx,
    stats arr
    = Done {| count := length arr; min := Some mn; max := Some mx;
              mean := Some (SFdiv prec emax (total arr)
                                  (nat_number (length arr))) |}
    /\ In mn arr /\ In mx arr
    /\ (forall x, In x arr -> lt x mn = false /\ gt x mx = false)
    /\ (Forall (fun x => isFinite x = true) arr ->
        forall x, In x arr -> SFleb mn x = true /\ SFleb x mx = true).
Proof.
  intros Hne.
  destruct (stats_nonempty Hne) as (mn & mx & Hs & Hmn & Hmx & Hb).
  exists mn, mx. repeat split; try assumption; try (now apply Hb).
  - match goal with
    | Hf : Forall _ arr, Hx : In x arr |- _ =>
        rewrite Forall_forall in Hf; destruct (Hb x Hx) as [Hl _];
        apply SFltb_false_leb; auto
    end.
  - match goal with
    | Hf : Forall _ arr, Hx : In x arr |- _ =>
        rewrite Forall_forall in Hf; destruct (Hb x Hx) as [_ Hg];
        apply SFltb_false_leb; auto
    end.
Qed.

Lemma stats_min_max_bound_the_array_witness :
  exists mn mx,
    stats [Prim2SF 3; Prim2SF 1; Prim2SF 2]
    = Done {| count := 3; min := Some mn; max := Some mx;
              mean := Some (Prim2SF 2) |}
    /\ In mn [Prim2SF 3; Prim2SF 1; Prim2SF 2]
    /\ In mx [Prim2SF 3; Prim2SF 1; Prim2SF 2].
Proof.
  destruct (@stats_min_max_bound_the_array
              [Prim2SF 3; Prim2SF 1; Prim2SF 2])
    as (mn & mx & Hs & Hmn & Hmx & _); [discriminate|].
  exists mn, mx. split; [|split; assumption].
  rewrite Hs. vm_compute. reflexivity.
Defined.

(** ** Statistics of the filtered rows *)

Lemma values_In (f : CleanedRow -> option number) (rows : list CleanedRow)
      (x : number) :
  In x (values f rows) <-> exists r, In r rows /\ f r = Some x.
Proof.
  unfold values. rewrite in_flat_map. split.
  - intros (r & Hr & Hx). exists r. split; [exact Hr|].
    destruct (f r) as [y|]; [|destruct Hx].
    destruct Hx as [->|[]]. reflexivity.
  - intros (r & Hr & E). exists r. split; [exact Hr|].
    rewrite E. now left.
Qed.

Lemma values_nullCount (f : CleanedRow -> option number)
      (rows : list CleanedRow) :
  length (values f rows) + nullCount f rows = length rows.
Proof.
  unfold values, nullCount. induction rows as [|r rows IH]; [reflexivity|].
  cbn [flat_map filter]. rewrite length_app.
  destruct (f r); cbn [isNull length]; lia.
Qed.

Lemma stats_members (arr : list number) (s : Stats) (x : number) :
  stats arr = Done s -> min s = Some x \/ max s = Some x -> In x arr.
Proof.
  intros Hs Hx. destruct arr as [|a0 arr].
  - cbn in Hs. injection Hs as <-. cbn in Hx. destruct Hx; discriminate.
  - destruct (@stats_nonempty (a0 :: arr))
      as (mn & mx & Hs' & Hmn & Hmx & _); [discriminate|].
    rewrite Hs in Hs'. injection Hs' as ->. cbn [min max] in Hx.
    destruct Hx as [Hx|Hx]; injection Hx as <-; assumption.
Qed.

Section FilteredStatistics.

Variable host : DateHost.

(** X12.  In the analytics of any input the minimum and the maximum of
    the ratings, when not [null], are finite Numbers between 0 and 5, and
    those of the prices are finite Numbers; each is the value of a record
    of the input.  For price and for rating the count of the statistics
    and the missing counter add up to [totalRows]. *)
Theorem statistics_of_filtered_rows (records : list RawRecord) :
  exists a,
    computeAnalytics (rowFilter (map (cleanRow host) records)) = Done a
    /\ (forall x,
          min (stats_rating a) = Some x \/ max (stats_rating a) = Some x ->
          isFinite x = true
          /\ SFleb (nat_number 0) x = true /\ SFleb x (nat_number 5) = true
          /\ exists row, In row records
                         /\ rating (cleanRow host row) = Some x)
    /\ (forall x,
          min (stats_price a) = Some x \/ max (stats_price a) = Some x ->
          isFinite x = true
          /\ exists row, In row records
                         /\ price (cleanRow host row) = Some x)
    /\ count (stats_price a) + missing_price (missingCounts a) = totalRows a
    /\ count (stats_rating a) + missing_rating (missingCounts a)
       = totalRows a.
Proof.
  set (rows := rowFilter (map (cleanRow host) records)).
  destruct (computeAnalytics_done rows) as (a & Ha & Ht & _ & Hp & Hr & _).
  destruct (computeAnalytics_missing rows Ha) as (_ & Hmp & Hmr & _).
  assert (Hrow : forall (f : CleanedRow -> option number) x,
             In x (values f rows) ->
             exists row, In row records /\ f (cleanRow host row) = Some x).
  { intros f x Hx. apply values_In in Hx as (r & Hin & E).
    unfold rows, rowFilter in Hin. apply filter_In in Hin as [Hin _].
    apply in_map_iff in Hin as (row & <- & Hrow). now exists row. }
  exists a. split; [exact Ha|].
  split.
  { intros x Hx. apply (stats_members _ Hr), Hrow in Hx.
    destruct Hx as (row & Hin & E).
    assert (Hrange : isFinite x = true
                     /\ SFleb (nat_number 0) x = true
                     /\ SFleb x (nat_number 5) = true).
    { rewrite cleanRow_rating in E.
      destruct (parseNumber (prop row (lit "rating"))) as [n|] eqn:En;
        [|discriminate].
      cbn [option_map] in E. injection E as <-.
      apply clamp_range. exact (parseNumber_finite _ En). }
    destruct Hrange as (H1 & H2 & H3). repeat split; try assumption.
    now exists row. }
  split.
  { intros x Hx. apply (stats_members _ Hp), Hrow in Hx.
    destruct Hx as (row & Hin & E). split; [|now exists row].
    rewrite cleanRow_price in E. exact (parseNumber_finite _ E). }
  destruct (stats_done (values price rows)) as (sp & Hsp & Hcp & _).
  destruct (stats_done (values rating rows)) as (sr & Hsr & Hcr & _).
  rewrite Hp in Hsp. injection Hsp as <-.
  rewrite Hr in Hsr. injection Hsr as <-.
  rewrite Hcp, Hcr, Hmp, Hmr, Ht. split; apply values_nullCount.
Qed.

End FilteredStatistics.

(** ** Product ranking *)

Lemma StronglySorted_app_inv (A : Type) (R : A -> A -> Prop) (l1 l2 : list A) :
  StronglySorted R (l1 ++ l2) ->
  StronglySorted R l1
  /\ forall x y, In x l1 -> In y l2 -> R x y.
Proof.
  induction l1 as [|a l1 IH]; cbn [app]; intros H.
  - split; [constructor | intros x y []].
  - apply StronglySorted_inv in H as [Hs Hall].
    destruct (IH Hs) as [Hs1 Hcross].
    rewrite Forall_app in Hall. destruct Hall as [Ha1 Ha2].
    split; [now constructor|].
    intros x y [<-|Hx] Hy; [|now apply Hcross].
    rewrite Forall_forall in Ha2. now apply Ha2.
Qed.

Lemma StronglySorted_map (A B : Type) (f : A -> B) (R : B -> B -> Prop)
      (l : list A) :
  StronglySorted (fun x y => R (f x) (f y)) l -> StronglySorted R (map f l).
Proof.
  induction 1 as [|a l Hs IH Hall]; cbn [map]; constructor; [exact IH|].
  rewrite Forall_forall in *. intros b Hb.
  apply in_map_iff in Hb as (x & <- & Hx). now apply Hall.
Qed.

Lemma fold_step_productCounts (rows : list CleanedRow) (a : Accumulators) :
  productCounts (fold_left step rows a)
  = fold_left countProduct rows (productCounts a).
Proof.
  revert a. induction rows as [|r rows IH]; intros a; [reflexivity|].
  cbn [fold_left]. now rewrite IH.
Qed.

Lemma productCounts_invariant (rows : list CleanedRow) :
  NoDup (map fst (fold_left countProduct rows []))
  /\ forall p,
       Map_get (fold_left countProduct rows []) p
       = match occurrences p rows with
         | O => None
         | S n => Some (S n)
         end.
Proof.
  induction rows as [|r rows [IHnd IH]] using rev_ind.
  - split; [constructor | reflexivity].
  - rewrite fold_left_app. cbn [fold_left].
    set (m := fold_left countProduct rows []) in *.
    unfold countProduct. fold (label r).
    split; [now apply Map_set_NoDup|].
    intros p. unfold occurrences in *. rewrite filter_app, length_app.
    cbn [filter].
    assert (Hz : or_zero (Map_get m (label r))
                 = length (filter (fun r0 => str_eqb (label r) (label r0))
                                  rows)).
    { rewrite IH. destruct (length _); reflexivity. }
    destruct (str_eqb p (label r)) eqn:E.
    + apply str_eqb_eq in E. subst p. rewrite Map_get_set_same, Hz.
      cbn [length]. rewrite Nat.add_1_r. reflexivity.
    + apply str_eqb_neq in E. rewrite Map_get_set_other by exact E.
      cbn [length]. rewrite Nat.add_0_r. apply IH.
Qed.

Lemma computeAnalytics_topProducts (rows : list CleanedRow) (a : Analytics) :
  computeAnalytics rows = Done a ->
  topProducts a
  = map (fun e => {| top_product := fst e; top_count := snd e |})
        (firstn 10
           (sort (fun x y => Z.of_nat (snd y) - Z.of_nat (snd x))%Z
                 (fold_left countProduct rows []))).
Proof.
  unfold computeAnalytics. cbv zeta. rewrite finalize_done. cbn [bind].
  destruct (stats_done (numeric_price (fold_left step rows initial)))
    as (sp & Hsp & _).
  destruct (stats_done (numeric_rating (fold_left step rows initial)))
    as (sr & Hsr & _).
  rewrite Hsp, Hsr. cbn [bind]. intros H. injection H as <-.
  cbn [topProducts]. now rewrite fold_step_productCounts.
Qed.

(** X13.  The product ranking of any row set holds at most 10 entries
    with distinct labels, a row without product being counted under
    ["Unknown"] together with the rows whose product is that text.  The
    count of an entry is the number of rows with its label, the entries
    are in descending order of count, and a label that is left out has no
    more rows than any entry of the ranking. *)
Theorem topProducts_ranks_the_most_frequent (rows : list CleanedRow) :
  exists a,
    computeAnalytics rows = Done a
    /\ length (topProducts a) <= 10
    /\ NoDup (map top_product (topProducts a))
    /\ (forall e, In e (topProducts a) ->
                  1 <= top_count e
                  /\ top_count e = occurrences (top_product e) rows)
    /\ StronglySorted (fun x y => top_count y <= top_count x) (topProducts a)
    /\ (forall p e,
          ~ In p (map top_product (topProducts a)) ->
          In e (topProducts a) ->
          occurrences p rows <= top_count e)
    /\ occurrences (lit "Unknown") rows
       = length (filter (fun r => isNull (product r)) rows)
         + length (filter
                     (fun r =>
                        match product r with
                        | Some p => str_eqb (lit "Unknown") p
                        | None => false
                        end) rows).
Proof.
  destruct (computeAnalytics_done rows) as (a & Ha & _).
  exists a. split; [exact Ha|].
  rewrite (computeAnalytics_topProducts rows Ha).
  destruct (productCounts_invariant rows) as [Hnd Hget].
  set (m := fold_left countProduct rows []) in *.
  set (cmp := fun x y : jstring * nat =>
                (Z.of_nat (snd y) - Z.of_nat (snd x))%Z).
  set (mk := fun e : jstring * nat =>
               {| top_product := fst e; top_count := snd e |}).
  assert (Hperm : Permutation (sort cmp m) m) by apply sort_perm.
  assert (Hsorted : StronglySorted (fun x y => snd y <= snd x) (sort cmp m)).
  { apply Sorted_StronglySorted; [intros x y z; lia|].
    assert (Hs : Sorted (fun x y => (cmp x y <= 0)%Z) (sort cmp m)).
    { apply sort_sorted. intros x y. unfold cmp. cbv beta. lia. }
    revert Hs. apply Sorted_ind.
    - constructor.
    - intros x l _ IH Hhd. constructor; [exact IH|].
      destruct Hhd; constructor. unfold cmp in *. cbv beta in *. lia. }
  assert (Hsplit : sort cmp m
                   = firstn 10 (sort cmp m) ++ skipn 10 (sort cmp m))
    by (symmetry; apply firstn_skipn).
  rewrite Hsplit in Hsorted.
  apply StronglySorted_app_inv in Hsorted as [Hs1 Hcross].
  assert (Hin : forall e, In e (firstn 10 (sort cmp m)) -> In e m).
  { intros e He. apply (Permutation_in _ Hperm). now apply In_firstn in He. }
  assert (Hcount : forall p c, In (p, c) m ->
                               1 <= c /\ c = occurrences p rows).
  { intros p c Hpc. apply (Map_In_get _ _ _ Hnd) in Hpc.
    rewrite Hget in Hpc. destruct (occurrences p rows); [discriminate|].
    injection Hpc as <-. split; [lia | reflexivity]. }
  split.
  { rewrite length_map, length_firstn. lia. }
  split.
  { rewrite map_map. cbn [mk top_product].
    assert (Hnd' : NoDup (map fst (sort cmp m))).
    { apply (Permutation_NoDup (l := map fst m)); [|exact Hnd].
      apply Permutation_map, Permutation_sym, Hperm. }
    rewrite Hsplit, map_app in Hnd'.
    apply NoDup_app_remove_r in Hnd'. exact Hnd'. }
  split.
  { intros e He. apply in_map_iff in He as ([p c] & <- & Hpc).
    cbn [mk top_product top_count fst snd]. apply Hcount. now apply Hin. }
  split.
  { apply StronglySorted_map. exact Hs1. }
  split.
  { intros p e Hp He. apply in_map_iff in He as ([q c] & <- & Hqc).
    cbn [mk top_count snd].
    destruct (occurrences p rows) as [|n] eqn:En; [lia|].
    assert (Hpm : In (p, S n) m).
    { apply Map_get_In. rewrite Hget, En. reflexivity. }
    apply (Permutation_in _ (Permutation_sym Hperm)) in Hpm.
    rewrite Hsplit in Hpm. apply in_app_or in Hpm as [Hpm|Hpm].
    - exfalso. apply Hp. apply in_map_iff. exists (mk (p, S n)).
      split; [reflexivity|]. apply in_map_iff. now exists (p, S n).
    - exact (Hcross _ _ Hqc Hpm). }
  unfold occurrences, label. clear.
  induction rows as [|r rows IH]; [reflexivity|].
  cbn [filter]. destruct (product r) as [p|]; cbn [isNull].
  - destruct (str_eqb (lit "Unknown") p); cbn [length]; lia.
  - rewrite str_eqb_refl. cbn [length]. lia.
Qed.

(** ** Rows of the monthly series *)

Lemma Map_set_sum (V : Type) (g : V -> nat) (m : Map V) (k : jstring) (v : V) :
  list_sum (map (fun e => g (snd e)) (Map_set m k v))
  + match Map_get m k with Some o => g o | None => 0 end
  = list_sum (map (fun e => g (snd e)) m) + g v.
Proof.
  induction m as [|[k' v'] m IH]; cbn [Map_set Map_get].
  - cbn [map snd]. unfold list_sum. cbn [fold_right]. lia.
  - unfold list_sum in *.
    destruct (str_eqb k k'); cbn [map snd fold_right]; lia.
Qed.

Lemma monthAcc_counts (rows : list CleanedRow) :
  list_sum (map (fun e => acc_count (snd e))
                (monthAcc (fold_left step rows initial)))
  = length (filter hasMonth rows).
Proof.
  induction rows as [|r rows IH] using rev_ind; [reflexivity|].
  rewrite fold_left_app, filter_app, length_app. cbn [fold_left step monthAcc].
  set (m := monthAcc (fold_left step rows initial)) in *.
  unfold countMonth. cbn [filter].
  replace (hasMonth r) with (negb (isNull (monthKey r))) by reflexivity.
  destruct (monthKey r) as [k|]; cbn [isNull negb length]; [|lia].
  pose proof (Map_set_sum acc_count m k
                (accumulate match Map_get m k with
                            | Some acc => acc
                            | None => emptyMonthAcc
                            end r)) as H.
  destruct (Map_get m k); cbn [accumulate acc_count emptyMonthAcc] in H; lia.
Qed.

Section MonthlyCounts.

Variable host : DateHost.

(** X14.  In the analytics of any input every row is either in exactly
    one month or without launch date: the counts of the monthly series
    and the missing counter of [launch_date] add up to [totalRows].  No
    entry of the series is empty, so the series has at most as many
    entries as there are rows with a launch date. *)
Theorem monthly_counts_add_up (records : list RawRecord) :
  exists a,
    computeAnalytics (rowFilter (map (cleanRow host) records)) = Done a
    /\ list_sum (map month_count (monthly a))
       + missing_launch_date (missingCounts a) = totalRows a
    /\ (forall e, In e (monthly a) -> 1 <= month_count e)
    /\ length (monthly a) + missing_launch_date (missingCounts a)
       <= totalRows a.
Proof.
  set (rows := rowFilter (map (cleanRow host) records)).
  destruct (computeAnalytics_done rows)
    as (a & Ha & Ht & Hmiss & _ & _ & _ & Hm).
  exists a. split; [exact Ha|].
  assert (Hlen : forall r d, In r rows -> launch_date r = Some d ->
                             7 <= length d).
  { intros r d. apply finalRows_launch_date. }
  assert (Hsum : list_sum (map month_count (monthly a))
                 = length (filter hasMonth rows)).
  { rewrite <- monthAcc_counts, Hm.
    rewrite (Permutation_list_sum
               (Permutation_map month_count (sort_perm _ _))).
    now rewrite map_map. }
  assert (Hnull : length (filter hasMonth rows)
                  + length (filter noLaunchDate rows) = length rows).
  { assert (Hext : forall r, In r rows ->
                             hasMonth r = negb (noLaunchDate r)).
    { intros r Hr. unfold hasMonth, noLaunchDate.
      destruct (monthKey_long r (fun d => Hlen r d Hr)) as [E _].
      rewrite E. destruct (launch_date r); reflexivity. }
    clear - Hext. induction rows as [|r rows IH]; [reflexivity|].
    cbn [filter]. rewrite (Hext r (or_introl eq_refl)).
    assert (IH' := IH (fun r' Hr' => Hext r' (or_intror Hr'))).
    destruct (noLaunchDate r); cbn [negb length]; lia. }
  assert (Hmd : missing_launch_date (missingCounts a)
                = length (filter noLaunchDate rows)).
  { rewrite Hmiss. apply (fold_step_missing_launch_date rows initial). }
  assert (Hpos : forall e, In e (monthly a) -> 1 <= month_count e).
  { destruct (monthly_entries rows Ha) as (_ & Hkeys & Hent & _).
    intros e He.
    assert (Hk : In (month e) (map month (monthly a))) by now apply in_map.
    apply Hkeys in Hk as (r & Hr & Hk).
    pose proof (f_equal month_count (Hent e He)) as Hc.
    cbn [finalEntry month_count snd summary acc_count] in Hc.
    assert (Hin : In r (filter (keyed (month e)) rows)).
    { apply filter_In. split; [exact Hr|]. unfold keyed. rewrite Hk.
      apply str_eqb_refl. }
    rewrite Hc.
    destruct (filter (keyed (month e)) rows); [destruct Hin | cbn; lia]. }
  split; [rewrite Hsum, Hmd, Ht; exact Hnull|].
  split; [exact Hpos|].
  assert (Hle : length (monthly a) <= list_sum (map month_count (monthly a))).
  { clear - Hpos. unfold list_sum.
    induction (monthly a) as [|e l IH]; [constructor|].
    cbn [map fold_right length].
    specialize (Hpos e (or_introl eq_refl)) as He.
    assert (IH' := IH (fun e' He' => Hpos e' (or_intror He'))). lia. }
  rewrite Hmd, Ht. lia.
Qed.

End MonthlyCounts.

(** ** Ties in the product ranking *)

Lemma productCounts_keys (rows : list CleanedRow) :
  map fst (fold_left countProduct rows []) = firstSeen (map label rows).
Proof.
  unfold firstSeen.
  assert (G : forall m,
             map fst (fold_left countProduct rows m)
             = fold_left (fun seen k =>
                            if includes seen k then seen else seen ++ [k])
                         (map label rows) (map fst m)).
  { induction rows as [|r rows IH]; intros m; [reflexivity|].
    cbn [fold_left map]. rewrite IH. f_equal.
    unfold countProduct. fold (label r). apply Map_set_keys. }
  apply (G []).
Qed.

Lemma insert_filter_same_count (c : nat) (x : jstring * nat)
      (l : list (jstring * nat)) :
  filter (fun e => Nat.eqb (snd e) c)
         (insert (fun x y => Z.of_nat (snd y) - Z.of_nat (snd x))%Z x l)
  = (if Nat.eqb (snd x) c then [x] else [])
      ++ filter (fun e => Nat.eqb (snd e) c) l.
Proof.
  induction l as [|y l IH]; cbn [insert filter].
  - destruct (Nat.eqb (snd x) c); reflexivity.
  - destruct (Z.leb_spec (Z.of_nat (snd y) - Z.of_nat (snd x)) 0) as [Hle|Hgt];
      cbn [filter].
    + destruct (Nat.eqb (snd x) c); reflexivity.
    + rewrite IH.
      destruct (Nat.eqb_spec (snd x) c) as [Ex|Ex];
        destruct (Nat.eqb_spec (snd y) c) as [Ey|Ey]; try reflexivity.
      lia.
Qed.

Lemma sort_filter_same_count (c : nat) (l : list (jstring * nat)) :
  filter (fun e => Nat.eqb (snd e) c)
         (sort (fun x y => Z.of_nat (snd y) - Z.of_nat (snd x))%Z l)
  = filter (fun e => Nat.eqb (snd e) c) l.
Proof.
  induction l as [|x l IH]; [reflexivity|].
  cbn [sort fold_right].
  fold (sort (fun x y => Z.of_nat (snd y) - Z.of_nat (snd x))%Z l).
  rewrite insert_filter_same_count, IH. cbn [filter].
  destruct (Nat.eqb (snd x) c); reflexivity.
Qed.

(** X15.  Ties in the product ranking are settled by first appearance:
    the entries of the ranking that have a given count are the first of
    the labels with that count, in the order in which the labels first
    occur in the rows. *)
Theorem topProducts_ties_keep_first_seen_order (rows : list CleanedRow)
        (c : nat) :
  exists a rest,
    computeAnalytics rows = Done a
    /\ filter (fun p => Nat.eqb (occurrences p rows) c)
              (firstSeen (map label rows))
       = map top_product
             (filter (fun e => Nat.eqb (top_count e) c) (topProducts a))
         ++ rest.
Proof.
  destruct (computeAnalytics_done rows) as (a & Ha & _).
  rewrite <- productCounts_keys.
  destruct (productCounts_invariant rows) as [Hnd Hget].
  set (m := fold_left countProduct rows []) in *.
  set (cmp := fun x y : jstring * nat =>
                (Z.of_nat (snd y) - Z.of_nat (snd x))%Z).
  exists a,
    (map fst (filter (fun e => Nat.eqb (snd e) c) (skipn 10 (sort cmp m)))).
  split; [exact Ha|].
  rewrite (computeAnalytics_topProducts rows Ha). fold m. fold cmp.
  assert (Hleft : filter (fun p => Nat.eqb (occurrences p rows) c) (map fst m)
                  = map fst (filter (fun e => Nat.eqb (snd e) c) m)).
  { assert (Hcount : forall e, In e m -> snd e = occurrences (fst e) rows).
    { intros [p n] Hpn. apply (Map_In_get _ _ _ Hnd) in Hpn.
      rewrite Hget in Hpn. cbn [fst snd].
      destruct (occurrences p rows); [discriminate | congruence]. }
    clear - Hcount. induction m as [|e m IH]; [reflexivity|].
    cbn [map filter]. rewrite <- (Hcount e (or_introl eq_refl)).
    rewrite (IH (fun e' He' => Hcount e' (or_intror He'))).
    destruct (Nat.eqb (snd e) c); reflexivity. }
  rewrite Hleft, <- (sort_filter_same_count c m). fold cmp.
  rewrite <- (firstn_skipn 10 (sort cmp m)) at 1.
  rewrite filter_app, map_app. f_equal.
  generalize (firstn 10 (sort cmp m)). intros l.
  induction l as [|e l IH]; [reflexivity|].
  cbn [map filter top_count snd].
  destruct (Nat.eqb (snd e) c); cbn [map top_product fst]; now rewrite IH.
Qed.

(** ** Inputs without a usable row *)

Section BlankInputs.

Variable host : DateHost.

(** X16.  An input with every required column whose rows are all dropped
    by the row filter is answered with success, not with an error: the
    analytics are those of no rows (zero counters, empty statistics, empty
    ranking and series) and the sample is empty. *)
Theorem upload_of_uninformative_rows (records : list RawRecord) :
  incl REQUIRED_COLUMNS (headersOf records) ->
  (forall r, In r records -> informative (cleanRow host r) = false) ->
  exists w, upload host records = Done (Success w noAnalytics []).
Proof.
  intros Hincl Hall.
  apply validateColumns_complete in Hincl.
  destruct (upload_valid host records Hincl) as (a & Ha & Hup).
  assert (E : rowFilter (map (cleanRow host) records) = []).
  { clear - Hall. unfold rowFilter.
    induction records as [|r records IH]; [reflexivity|].
    cbn [map filter]. rewrite (Hall r (or_introl eq_refl)).
    apply IH. intros r' Hr'. apply Hall. now right. }
  rewrite E in Ha, Hup. cbn in Ha. injection Ha as <-.
  eexists. exact Hup.
Qed.

End BlankInputs.

Lemma upload_of_uninformative_rows_witness :
  exists w,
    upload isoOnlyHost [blankRecord; blankRecord]
    = Done (Success w noAnalytics []).
Proof.
  apply upload_of_uninformative_rows.
  - intros c Hc. vm_compute in Hc. vm_compute. tauto.
  - intros r [<-|[<-|[]]]; vm_compute; reflexivity.
Defined.

(** ** Years of fewer than four digits *)

Lemma year_has_fewer_digits (y : Z) :
  (0 <= y <= 999)%Z ->
  digitsOnly 1 (String_of_Z y) = true \/ digitsOnly 2 (String_of_Z y) = true
  \/ digitsOnly 3 (String_of_Z y) = true.
Proof.
  intros H.
  assert (Hall : forallb (fun z => digitsOnly 1 (String_of_Z z)
                                   || digitsOnly 2 (String_of_Z z)
                                   || digitsOnly 3 (String_of_Z z))
                         (Z_range 0 (Z.to_nat 1000)) = true)
    by (vm_compute; reflexivity).
  rewrite forallb_forall in Hall.
  specialize (Hall y). rewrite !orb_true_iff in Hall.
  rewrite <- or_assoc. apply Hall, In_Z_range. rewrite Z2Nat.id; lia.
Qed.

Lemma isoMatch_year_digits (s : jstring) (i : nat) :
  isoMatch s = true -> i < 4 ->
  exists c, nth_error s i = Some c /\ isDigit c = true.
Proof.
  intros H Hi.
  do 11 (destruct s as [|? s]; try discriminate).
  cbn [isoMatch] in H.
  repeat match goal with
         | H : _ && _ = true |- _ => apply andb_true_iff in H as [H ?]
         end.
  destruct i as [|[|[|[|i]]]]; try lia; cbn [nth_error]; eauto.
Qed.

Lemma isoMatch_short_year (y rest : jstring) (n : nat) :
  n < 4 -> digitsOnly n y = true -> isoMatch (y ++ lit "-" ++ rest) = false.
Proof.
  intros Hn Hy. unfold digitsOnly in Hy.
  apply andb_true_iff in Hy as [Hl _]. apply Nat.eqb_eq in Hl.
  destruct (isoMatch (y ++ lit "-" ++ rest)) eqn:E; [|reflexivity].
  destruct (@isoMatch_year_digits _ (length y) E) as (c & Hc & Hd); [lia|].
  rewrite nth_error_app2, Nat.sub_diag in Hc by lia.
  cbn in Hc. injection Hc as <-. discriminate.
Qed.

Section ShortYears.

Variable host : DateHost.

(** X17.  The year of a date read by the host is written without padding:
    when the host reads a text that is not in the ISO shape as a date of
    a year from 0 to 999, the normalizer returns a text that is not in
    the shape of four digits, two digits and two digits. *)
Theorem parseDateISO_does_not_pad_the_year (raw : jstring) (t : Z) :
  trim raw <> [] ->
  isoMatch (trim raw) = false ->
  Date_parse host (trim raw) = Some t ->
  (0 <= getFullYear host t <= 999)%Z ->
  exists d, parseDateISO host (Str raw) = Some d /\ isoMatch d = false.
Proof.
  intros Hne Hiso Hp Hy. unfold parseDateISO. rewrite Hiso, Hp.
  destruct (trim raw); [congruence|]. cbn [is_empty].
  eexists. split; [reflexivity|].
  destruct (year_has_fewer_digits Hy) as [H|[H|H]];
    eapply isoMatch_short_year; try exact H; lia.
Qed.

End ShortYears.

Lemma parseDateISO_does_not_pad_the_year_witness :
  exists d,
    parseDateISO year987Host (Str (lit "14 March 987")) = Some d
    /\ isoMatch d = false.
Proof.
  apply (@parseDateISO_does_not_pad_the_year year987Host
           (lit "14 March 987") 0%Z).
  - vm_compute. discriminate.
  - vm_compute. reflexivity.
  - reflexivity.
  - cbn. lia.
Defined.
